(** * gh project link: a shallow embedding of pkg/cmd/project/link/link.go

    The command resolves an owner, a project and a target (repository or
    team), issues one GraphQL mutation and prints or exports the result.
    The Go code is embedded as functions in a small state-and-error monad:
    the state records the calls made to the collaborators and the bytes
    written to standard output, the error side is Go's [error] result. *)

From Stdlib Require Import ZArith String Ascii List Lia Bool.
From stdpp Require Import gmap strings.

Local Open Scope string_scope.
Local Open Scope Z_scope.

(** ** strconv (Go standard library) *)

Module strconv.

(** [NumError.Err]: the causes a conversion can fail with. *)
Inductive numErr := ErrSyntax | ErrRange | ErrBitSize.

Definition byte_of (c : ascii) : Z := Z.of_N (N_of_ascii c).

(** [lower(c)] is [c | ('x' - 'X')]. *)
Definition lower (c : Z) : Z := Z.lor c 32.

Definition uint64 (z : Z) : Z := z mod 2 ^ 64.
Definition int64 (z : Z) : Z := (z + 2 ^ 63) mod 2 ^ 64 - 2 ^ 63.

Definition maxUint64 : Z := 2 ^ 64 - 1.

Section Base10.
(** The only call site passes base 10, so [base] is fixed and
    [base0] (prefix detection, underscores) is false.  [IntSize] is 64. *)
Let base : Z := 10.

(** [cutoff] is the smallest number such that [cutoff*base > maxUint64]. *)
Definition cutoff10 : Z := maxUint64 / 10 + 1.

(** The body of [for _, c := range []byte(s)] in [ParseUint], with
    the running value [n]; an early [return] ends the loop. *)
Fixpoint ParseUint_loop (maxVal : Z) (s : string) (n : Z) : Z * option numErr :=
  match s with
  | EmptyString => (n, None)
  | String a rest =>
      let c := byte_of a in
      let d :=
        if (48 <=? c) && (c <=? 57) then Some (c - 48)
        else if (97 <=? lower c) && (lower c <=? 122) then Some (lower c - 97 + 10)
        else None in
      match d with
      | None => (0, Some ErrSyntax)
      | Some d =>
          if base <=? d then (0, Some ErrSyntax)
          else if cutoff10 <=? n then (maxVal, Some ErrRange)
          else
            let n' := uint64 (n * base) in
            let n1 := uint64 (n' + d) in
            if (n1 <? n') || (maxVal <? n1) then (maxVal, Some ErrRange)
            else ParseUint_loop maxVal rest n1
      end
  end.

Definition ParseUint (s : string) (bitSize : Z) : Z * option numErr :=
  if String.eqb s "" then (0, Some ErrSyntax)
  else
    let bitSize := if bitSize =? 0 then 64 else bitSize in
    if (bitSize <? 0) || (64 <? bitSize) then (0, Some ErrBitSize)
    else
      let maxVal := uint64 (Z.shiftl 1 bitSize - 1) in
      ParseUint_loop maxVal s 0.

(** [strconv.ParseInt(s, 10, bitSize)]: the value and the error, as
    Go returns them. *)
Definition ParseInt (s : string) (bitSize : Z) : Z * option numErr :=
  match s with
  | EmptyString => (0, Some ErrSyntax)
  | String c0 rest =>
      let '(neg, s') :=
        if Ascii.eqb c0 "+"%char then (false, rest)
        else if Ascii.eqb c0 "-"%char then (true, rest)
        else (false, s) in
      let '(un, err) := ParseUint s' bitSize in
      let stop :=
        match err with
        | Some ErrRange | None => false
        | Some _ => true
        end in
      if stop then (0, err)
      else
        let bitSize := if bitSize =? 0 then 64 else bitSize in
        let cutoff := uint64 (Z.shiftl 1 (bitSize - 1)) in
        if negb neg && (cutoff <=? un) then (int64 (cutoff - 1), Some ErrRange)
        else if neg && (cutoff <? un) then (int64 (- int64 cutoff), Some ErrRange)
        else
          let n := int64 un in
          ((if neg then int64 (- n) else n), None)
  end.
End Base10.

(** Decimal numerals, independently of the parser: an optional sign
    followed by one or more ASCII digits, and the integer they denote. *)
Definition is_digit (a : ascii) : bool :=
  (48 <=? byte_of a) && (byte_of a <=? 57).

Fixpoint digits_acc (s : string) (acc : Z) : option Z :=
  match s with
  | EmptyString => Some acc
  | String a rest =>
      if is_digit a then digits_acc rest (acc * 10 + (byte_of a - 48)) else None
  end.

Definition digits_value (s : string) : option Z :=
  match s with
  | EmptyString => None
  | _ => digits_acc s 0
  end.

Definition numeral_value (s : string) : option Z :=
  match s with
  | EmptyString => None
  | String c0 rest =>
      if Ascii.eqb c0 "+"%char then digits_value rest
      else if Ascii.eqb c0 "-"%char then option_map Z.opp (digits_value rest)
      else digits_value s
  end.

Definition is_numeral (s : string) : bool :=
  match numeral_value s with Some _ => true | None => false end.

End strconv.

(** ** Go results and errors *)

(** An [error] value.  [FlagError] is what [cmdutil.FlagErrorf] builds,
    [Errorf] what [fmt.Errorf] builds; [Failure] stands for the errors
    that the collaborators (client construction, queries, transport,
    writers) produce, told apart by [origin]. *)
Inductive error :=
  | FlagError (msg : string)
  | Errorf (msg : string)
  | Failure (origin : string).

(** A Go [(T, error)] pair in which the value is used only when the
    error is nil. *)
Inductive result (A : Type) :=
  | Ok (a : A)
  | Err (e : error).
Arguments Ok {A} a.
Arguments Err {A} e.

(** A Go [error] return: [None] is [nil]. *)
Definition goerror := option error.

Module cmdutil.
(** [FlagErrorf(format, args...)] wraps [fmt.Errorf(format, args...)]
    in a [FlagError]; the caller passes the formatted message. *)
Definition FlagErrorf (msg : string) : error := FlagError msg.
End cmdutil.

Module fmt.
Definition Errorf (msg : string) : error := Errorf msg.
Definition newline : string := String (ascii_of_nat 10) EmptyString.
(** [Sprintf("invalid number: %v", a)] for a string [a]. *)
Definition invalid_number (a : string) : string := "invalid number: " ++ a.
(** [Sprintf("%s\n", url)]. *)
Definition line (url : string) : string := url ++ newline.
End fmt.

(** ** The collaborators' data, with the fields this file reads *)

Module ghrepo.
(** Modelled from the spec: package internal/ghrepo is outside link.go;
    [ghrepo.New(owner, name)] names a repository by owner and name
    (section 4.3: a target is looked up by name under the owner). *)
Record Interface := New { RepoOwner : string; RepoName : string }.
End ghrepo.

Module api.
(** Modelled from the spec: package api is outside link.go; a looked-up
    repository or team yields its identifier (section 3, ResolvedTarget),
    the one field link.go reads. *)
Record Repository := { Repository_ID : string }.
Record OrgTeam := { OrgTeam_ID : string }.

(** The HTTP transport, seen through the answers the API gives to the
    two lookups made over it. *)
Record Transport := {
  repository : ghrepo.Interface -> result Repository;
  organizationTeam : ghrepo.Interface -> string -> result OrgTeam
}.

Record Client := NewClientFromHTTP { http : Transport }.

Definition GitHubRepo (c : Client) (r : ghrepo.Interface) : result Repository :=
  repository (http c) r.

Definition OrganizationTeam (c : Client) (r : ghrepo.Interface) (team : string)
  : result OrgTeam :=
  organizationTeam (http c) r team.
End api.

Module http.
Definition Client : Type := api.Transport.
End http.

Module iostreams.
(** [Out] is the standard-output writer: on [data] it either writes
    everything ([None]) or writes the first [n] bytes and fails. *)
Record IOStreams := {
  CanPrompt : bool;
  IsStdoutTTY : bool;
  Out : string -> option (nat * error)
}.
End iostreams.

(** The input structs of the library shurcooL/githubv4: the two
    required identifiers and the optional client mutation id. *)
Module githubv4.
(** [githubv4.ID(s)] for a string [s]. *)
Definition ID (s : string) : string := s.

Module LinkProjectV2ToRepositoryInput.
Record t := {
  ProjectID : string;
  RepositoryID : string;
  ClientMutationID : option string
}.
End LinkProjectV2ToRepositoryInput.

Module LinkProjectV2ToTeamInput.
Record t := {
  ProjectID : string;
  TeamID : string;
  ClientMutationID : option string
}.
End LinkProjectV2ToTeamInput.
End githubv4.

(** The values stored in the [map[string]interface{}] of variables. *)
Inductive variable :=
  | RepositoryInput (i : githubv4.LinkProjectV2ToRepositoryInput.t)
  | TeamInput (i : githubv4.LinkProjectV2ToTeamInput.t).

Module queries.
(** Modelled from the spec: package project/shared/queries is outside
    link.go; section 3 gives the owner its login, the project its
    identifier and the echoed repository or team its URL, which are the
    fields link.go reads. *)
Record Owner := { Login : string }.
Record Project := { Project_ID : string }.
Record Repository := { Repository_URL : string }.
Record Team := { Team_URL : string }.
End queries.

(** ** The types of link.go *)

Record linkProjectToRepoMutation := {
  LinkProjectV2ToRepository_Repository : queries.Repository
}.

Record linkProjectToTeamMutation := {
  LinkProjectV2ToTeam_Team : queries.Team
}.

(** [Mutate] takes its query as [interface{}] and fills it in place; the
    two query types of this file index it here. *)
Inductive queryKind := RepoQuery | TeamQuery.

Definition queryOf (k : queryKind) : Type :=
  match k with
  | RepoQuery => linkProjectToRepoMutation
  | TeamQuery => linkProjectToTeamMutation
  end.

(** [*queries.Client], through the three methods called on it.
    [Mutate] returns the query as the response filled it, and the error. *)
Record Client := {
  NewOwner : bool -> string -> result queries.Owner;
  NewProject : bool -> queries.Owner -> Z -> bool -> result queries.Project;
  Mutate : forall k : queryKind,
      string -> queryOf k -> gmap string variable -> queryOf k * goerror
}.

(** What is handed to [Exporter.Write] as [data interface{}]. *)
Inductive exportData :=
  | RepositoryData (r : queries.Repository)
  | TeamData (t : queries.Team).

(** [cmdutil.Exporter]: [Write] yields the bytes it puts on the output
    stream for [data], and its error. *)
Record Exporter := {
  Fields : list string;
  Write : exportData -> string * goerror
}.

Record linkOpts := {
  number : Z;
  owner : string;
  repo : string;
  team : string;
  projectID : string;
  repoID : string;
  teamID : string;
  format : string;
  exporter : option Exporter
}.

Record linkConfig := {
  httpClient : result http.Client;
  client : Client;
  opts : linkOpts;
  io : iostreams.IOStreams
}.

(** [cmdutil.Factory], with the two fields read by [NewCmdLink]: the
    HTTP-client constructor, by its outcome, and the streams. *)
Record Factory := {
  HttpClient : result http.Client;
  IOStreams : iostreams.IOStreams
}.

(** Field assignments on the by-value copies of [opts] and [config]. *)
Definition set_number (o : linkOpts) (n : Z) : linkOpts :=
  {| number := n; owner := owner o; repo := repo o; team := team o;
     projectID := projectID o; repoID := repoID o; teamID := teamID o;
     format := format o; exporter := exporter o |}.

Definition set_projectID (o : linkOpts) (id : string) : linkOpts :=
  {| number := number o; owner := owner o; repo := repo o; team := team o;
     projectID := id; repoID := repoID o; teamID := teamID o;
     format := format o; exporter := exporter o |}.

Definition set_repoID (o : linkOpts) (id : string) : linkOpts :=
  {| number := number o; owner := owner o; repo := repo o; team := team o;
     projectID := projectID o; repoID := id; teamID := teamID o;
     format := format o; exporter := exporter o |}.

Definition set_teamID (o : linkOpts) (id : string) : linkOpts :=
  {| number := number o; owner := owner o; repo := repo o; team := team o;
     projectID := projectID o; repoID := repoID o; teamID := id;
     format := format o; exporter := exporter o |}.

Definition set_opts (c : linkConfig) (o : linkOpts) : linkConfig :=
  {| httpClient := httpClient c; client := client c; opts := o; io := io c |}.

(** ** Calls and output *)

(** The calls a run makes, in the order it makes them. *)
Inductive call :=
  | CallClientNew
  | CallNewOwner (canPrompt : bool) (login : string)
  | CallNewProject (canPrompt : bool) (o : queries.Owner) (number : Z) (fields : bool)
  | CallHttpClient
  | CallGitHubRepo (r : ghrepo.Interface)
  | CallOrganizationTeam (r : ghrepo.Interface) (team : string)
  | CallMutate (name : string) (variables : gmap string variable)
  | CallExporterWrite (data : exportData)
  | CallPrintResults (url : string)
  | CallRunF (config : linkConfig)
  | CallRunLink (config : linkConfig).

Record world := {
  calls : list call;
  stdout : string
}.

Definition start : world := {| calls := []; stdout := "" |}.

Definition M (A : Type) : Type := world -> world * result A.

Definition ret {A} (a : A) : M A := fun w => (w, Ok a).

Definition fail {A} (e : error) : M A := fun w => (w, Err e).

Definition bind {A B} (m : M A) (k : A -> M B) : M B :=
  fun w =>
    match m w with
    | (w', Ok a) => k a w'
    | (w', Err e) => (w', Err e)
    end.

Notation "x <- m ;; k" := (bind m (fun x => k))
  (at level 100, m at next level, right associativity).

(** Record a call. *)
Definition did (c : call) : M unit :=
  fun w => ({| calls := calls w ++ [c]; stdout := stdout w |}, Ok tt).

(** Bytes reaching standard output. *)
Definition emit (data : string) : M unit :=
  fun w => ({| calls := calls w; stdout := stdout w ++ data |}, Ok tt).

(** A call whose outcome is a [(T, error)] pair. *)
Definition calling {A} (c : call) (r : result A) : M A :=
  _ <- did c ;; fun w => (w, r).

(** [if err != nil { return err }] for a bare [error]. *)
Definition check (e : goerror) : M unit :=
  match e with
  | None => ret tt
  | Some e => fail e
  end.

Definition prefix_bytes (n : nat) (data : string) : string := substring 0 n data.

(** [fmt.Fprintf(io.Out, ...)] once the text is formatted: one [Write]. *)
Definition Fprintf_Out (io : iostreams.IOStreams) (data : string) : M unit :=
  match iostreams.Out io data with
  | None => emit data
  | Some (n, e) => _ <- emit (prefix_bytes n data) ;; fail e
  end.

(** [exporter.Write(io, data)]. *)
Definition Exporter_Write (e : Exporter) (io : iostreams.IOStreams) (data : exportData)
  : M unit :=
  _ <- did (CallExporterWrite data) ;;
  let '(bytes, err) := Write e data in
  _ <- emit bytes ;;
  check err.

(** ** The functions of link.go *)

Definition linkRepoArgs (config : linkConfig)
  : linkProjectToRepoMutation * gmap string variable :=
  ({| LinkProjectV2ToRepository_Repository := {| queries.Repository_URL := "" |} |},
   {[ "input" :=
        RepositoryInput
          {| githubv4.LinkProjectV2ToRepositoryInput.ProjectID :=
               githubv4.ID (projectID (opts config));
             githubv4.LinkProjectV2ToRepositoryInput.RepositoryID :=
               githubv4.ID (repoID (opts config));
             githubv4.LinkProjectV2ToRepositoryInput.ClientMutationID := None |} ]}).

Definition linkTeamArgs (config : linkConfig)
  : linkProjectToTeamMutation * gmap string variable :=
  ({| LinkProjectV2ToTeam_Team := {| queries.Team_URL := "" |} |},
   {[ "input" :=
        TeamInput
          {| githubv4.LinkProjectV2ToTeamInput.ProjectID :=
               githubv4.ID (projectID (opts config));
             githubv4.LinkProjectV2ToTeamInput.TeamID :=
               githubv4.ID (teamID (opts config));
             githubv4.LinkProjectV2ToTeamInput.ClientMutationID := None |} ]}).

Definition printResults (config : linkConfig) (url : string) : M unit :=
  _ <- did (CallPrintResults url) ;;
  if negb (iostreams.IsStdoutTTY (io config)) then ret tt
  else Fprintf_Out (io config) (fmt.line url).

Definition linkRepo (c : api.Client) (o : queries.Owner) (config : linkConfig) : M unit :=
  let target := ghrepo.New (queries.Login o) (repo (opts config)) in
  found <- calling (CallGitHubRepo target) (api.GitHubRepo c target) ;;
  let config := set_opts config (set_repoID (opts config) (api.Repository_ID found)) in
  let '(query, variable) := linkRepoArgs config in
  _ <- did (CallMutate "LinkProjectV2ToRepository" variable) ;;
  let '(query, err) :=
    Mutate (client config) RepoQuery "LinkProjectV2ToRepository" query variable in
  _ <- check err ;;
  match exporter (opts config) with
  | Some e =>
      Exporter_Write e (io config)
        (RepositoryData (LinkProjectV2ToRepository_Repository query))
  | None =>
      printResults config
        (queries.Repository_URL (LinkProjectV2ToRepository_Repository query))
  end.

Definition linkTeam (c : api.Client) (o : queries.Owner) (config : linkConfig) : M unit :=
  let org := ghrepo.New (queries.Login o) "" in
  found <- calling (CallOrganizationTeam org (team (opts config)))
             (api.OrganizationTeam c org (team (opts config))) ;;
  let config := set_opts config (set_teamID (opts config) (api.OrgTeam_ID found)) in
  let '(query, variable) := linkTeamArgs config in
  _ <- did (CallMutate "LinkProjectV2ToTeam" variable) ;;
  let '(query, err) :=
    Mutate (client config) TeamQuery "LinkProjectV2ToTeam" query variable in
  _ <- check err ;;
  match exporter (opts config) with
  | Some e =>
      Exporter_Write e (io config) (TeamData (LinkProjectV2ToTeam_Team query))
  | None =>
      printResults config (queries.Team_URL (LinkProjectV2ToTeam_Team query))
  end.

Definition nonempty (s : string) : bool := negb (String.eqb s "").

Definition runLink (config : linkConfig) : M unit :=
  let canPrompt := iostreams.CanPrompt (io config) in
  o <- calling (CallNewOwner canPrompt (owner (opts config)))
         (NewOwner (client config) canPrompt (owner (opts config))) ;;
  project <- calling (CallNewProject canPrompt o (number (opts config)) false)
               (NewProject (client config) canPrompt o (number (opts config)) false) ;;
  let config := set_opts config (set_projectID (opts config) (queries.Project_ID project)) in
  h <- calling CallHttpClient (httpClient config) ;;
  let c := api.NewClientFromHTTP h in
  if nonempty (repo (opts config)) then linkRepo c o config
  else if nonempty (team (opts config)) then linkTeam c o config
  else ret tt.

(** [int32(num)] for an [int64]. *)
Definition int32 (z : Z) : Z := (z + 2 ^ 31) mod 2 ^ 32 - 2 ^ 31.

Section NewCmdLink.
(** [client.New] of package project/shared/client: it builds the
    queries client from the factory, or fails. *)
Variable client_New : Factory -> result Client.

(** The [RunE] closure.  [opts] is the captured variable as the flag
    parser left it; [runF] is the test hook ([None] is [nil]). *)
Definition RunE (f : Factory) (runF : option (linkConfig -> goerror))
    (opts0 : linkOpts) (args : list string) : M unit :=
  cl <- calling CallClientNew (client_New f) ;;
  opts1 <- match args with
           | [a] =>
               let '(num, err) := strconv.ParseInt a 32 in
               match err with
               | Some _ => fail (cmdutil.FlagErrorf (fmt.invalid_number a))
               | None => ret (set_number opts0 (int32 num))
               end
           | _ => ret opts0
           end ;;
  let config :=
    {| httpClient := HttpClient f; client := cl; opts := opts1; io := IOStreams f |} in
  if nonempty (repo (opts config)) && nonempty (team (opts config)) then
    fail (fmt.Errorf "specify only one of `--repo` or `--team`")
  else if String.eqb (repo (opts config)) "" && String.eqb (team (opts config)) "" then
    fail (fmt.Errorf "specify either `--repo` or `--team`")
  else
    match runF with
    | Some hook => _ <- did (CallRunF config) ;; check (hook config)
    | None => _ <- did (CallRunLink config) ;; runLink config
    end.

(** The command line after flag parsing: the values of [--owner],
    [--repo], [--team] (empty when absent) and the exporter that the
    format flags selected, if any. *)
Record flags := {
  flag_owner : string;
  flag_repo : string;
  flag_team : string;
  flag_exporter : option Exporter
}.

(** [opts := linkOpts{}] with the flag variables stored by the parser. *)
Definition parsed (fl : flags) : linkOpts :=
  {| number := 0; owner := flag_owner fl; repo := flag_repo fl; team := flag_team fl;
     projectID := ""; repoID := ""; teamID := ""; format := "";
     exporter := flag_exporter fl |}.

(** One execution of the command that [NewCmdLink(f, runF)] returns. *)
Definition NewCmdLink (f : Factory) (runF : option (linkConfig -> goerror))
    (fl : flags) (args : list string) : M unit :=
  RunE f runF (parsed fl) args.

End NewCmdLink.

(** ** Observations on a run *)

(** The configurations handed to [runF] or [runLink]. *)
Definition handed_over (cs : list call) : list linkConfig :=
  flat_map (fun c =>
    match c with
    | CallRunF config | CallRunLink config => [config]
    | _ => []
    end) cs.

(** The mutations sent: operation name and variables. *)
Definition mutations (cs : list call) : list (string * gmap string variable) :=
  flat_map (fun c =>
    match c with
    | CallMutate name variables => [(name, variables)]
    | _ => []
    end) cs.

(** The network operations of a run. *)
Inductive step := OwnerResolution | ProjectResolution | TargetLookup | LinkMutation.

Definition steps (cs : list call) : list step :=
  flat_map (fun c =>
    match c with
    | CallNewOwner _ _ => [OwnerResolution]
    | CallNewProject _ _ _ _ => [ProjectResolution]
    | CallGitHubRepo _ | CallOrganizationTeam _ _ => [TargetLookup]
    | CallMutate _ _ => [LinkMutation]
    | _ => []
    end) cs.

(** The URLs passed to [printResults]. *)
Definition printed (cs : list call) : list string :=
  flat_map (fun c =>
    match c with
    | CallPrintResults url => [url]
    | _ => []
    end) cs.

(** The usage errors of the command: what [cmdutil.FlagErrorf] builds,
    and the two messages about the target flags. *)
Definition usage_error (e : error) : bool :=
  match e with
  | FlagError _ => true
  | Errorf msg =>
      String.eqb msg "specify only one of `--repo` or `--team`" ||
      String.eqb msg "specify either `--repo` or `--team`"
  | Failure _ => false
  end.

(** The configuration as [linkRepo] and [linkTeam] hold it once the
    target is found, and the answer of the API to the mutation they send. *)
Definition with_repoID (config : linkConfig) (found : api.Repository) : linkConfig :=
  set_opts config (set_repoID (opts config) (api.Repository_ID found)).

Definition with_teamID (config : linkConfig) (found : api.OrgTeam) : linkConfig :=
  set_opts config (set_teamID (opts config) (api.OrgTeam_ID found)).

Definition with_projectID (config : linkConfig) (p : queries.Project) : linkConfig :=
  set_opts config (set_projectID (opts config) (queries.Project_ID p)).

Definition repoMutation (config : linkConfig) (found : api.Repository)
  : linkProjectToRepoMutation * goerror :=
  Mutate (client config) RepoQuery "LinkProjectV2ToRepository"
    (fst (linkRepoArgs (with_repoID config found)))
    (snd (linkRepoArgs (with_repoID config found))).

Definition teamMutation (config : linkConfig) (found : api.OrgTeam)
  : linkProjectToTeamMutation * goerror :=
  Mutate (client config) TeamQuery "LinkProjectV2ToTeam"
    (fst (linkTeamArgs (with_teamID config found)))
    (snd (linkTeamArgs (with_teamID config found))).

Definition repoTarget (o : queries.Owner) (config : linkConfig) : ghrepo.Interface :=
  ghrepo.New (queries.Login o) (repo (opts config)).

Definition teamOrg (o : queries.Owner) : ghrepo.Interface :=
  ghrepo.New (queries.Login o) "".

(** A world after further calls and further output. *)
Definition after (w : world) (cs : list call) (out : string) : world :=
  {| calls := calls w ++ cs; stdout := stdout w ++ out |}.

(** After the mutation a run makes at most one more call: the export or
    the print. *)
Inductive closing : list call -> Prop :=
  | closing_none : closing []
  | closing_export data : closing [CallExporterWrite data]
  | closing_print url : closing [CallPrintResults url].

(** What was handed to the exporter. *)
Definition exported (cs : list call) : list exportData :=
  flat_map (fun c =>
    match c with
    | CallExporterWrite data => [data]
    | _ => []
    end) cs.

Definition url_of (data : exportData) : string :=
  match data with
  | RepositoryData r => queries.Repository_URL r
  | TeamData t => queries.Team_URL t
  end.

(** [linked config data]: on [config] every collaborator answers, the
    mutation succeeds, and [data] is the entity it returned. *)
Inductive linked (config : linkConfig) : exportData -> Prop :=
  | linked_repo own p h found query :
      NewOwner (client config) (iostreams.CanPrompt (io config)) (owner (opts config))
        = Ok own ->
      NewProject (client config) (iostreams.CanPrompt (io config)) own
        (number (opts config)) false = Ok p ->
      httpClient config = Ok h ->
      nonempty (repo (opts config)) = true ->
      api.GitHubRepo (api.NewClientFromHTTP h) (repoTarget own config) = Ok found ->
      repoMutation (with_projectID config p) found = (query, None) ->
      linked config (RepositoryData (LinkProjectV2ToRepository_Repository query))
  | linked_team own p h found query :
      NewOwner (client config) (iostreams.CanPrompt (io config)) (owner (opts config))
        = Ok own ->
      NewProject (client config) (iostreams.CanPrompt (io config)) own
        (number (opts config)) false = Ok p ->
      httpClient config = Ok h ->
      nonempty (repo (opts config)) = false ->
      nonempty (team (opts config)) = true ->
      api.OrganizationTeam (api.NewClientFromHTTP h) (teamOrg own) (team (opts config))
        = Ok found ->
      teamMutation (with_projectID config p) found = (query, None) ->
      linked config (TeamData (LinkProjectV2ToTeam_Team query)).

(** The configuration [RunE] builds from the factory, the client and
    the options. *)
Definition built (f : Factory) (cl : Client) (o : linkOpts) : linkConfig :=
  {| httpClient := HttpClient f; client := cl; opts := o; io := IOStreams f |}.

(** The repositories and the teams looked up. *)
Definition repo_lookups (cs : list call) : list ghrepo.Interface :=
  flat_map (fun c =>
    match c with
    | CallGitHubRepo r => [r]
    | _ => []
    end) cs.

Definition team_lookups (cs : list call) : list (ghrepo.Interface * string) :=
  flat_map (fun c =>
    match c with
    | CallOrganizationTeam r t => [(r, t)]
    | _ => []
    end) cs.

(** ** Sample collaborators *)

Module Sample.
Definition repoURL : string := "https://github.com/monalisa/my_repo".
Definition teamURL : string := "https://github.com/orgs/my_org/teams/my_team".

(** A transport on which the mutation succeeds and echoes the entity. *)
Definition Mutate_ok (k : queryKind) (name : string) (q : queryOf k)
    (v : gmap string variable) : queryOf k * goerror :=
  match k return queryOf k * goerror with
  | RepoQuery =>
      ({| LinkProjectV2ToRepository_Repository :=
            {| queries.Repository_URL := repoURL |} |}, None)
  | TeamQuery =>
      ({| LinkProjectV2ToTeam_Team := {| queries.Team_URL := teamURL |} |}, None)
  end.

(** A transport on which the mutation is refused. *)
Definition Mutate_refused (k : queryKind) (name : string) (q : queryOf k)
    (v : gmap string variable) : queryOf k * goerror :=
  (q, Some (Failure "mutation refused")).

Definition queriesClient : Client :=
  {| NewOwner := fun _ login => Ok {| queries.Login := login |};
     NewProject := fun _ _ _ _ => Ok {| queries.Project_ID := "PVT_1" |};
     Mutate := Mutate_ok |}.

Definition refusingClient : Client :=
  {| NewOwner := fun _ login => Ok {| queries.Login := login |};
     NewProject := fun _ _ _ _ => Ok {| queries.Project_ID := "PVT_1" |};
     Mutate := Mutate_refused |}.

Definition transport : api.Transport :=
  {| api.repository := fun _ => Ok {| api.Repository_ID := "R_1" |};
     api.organizationTeam := fun _ _ => Ok {| api.OrgTeam_ID := "T_1" |} |}.

Definition terminal : iostreams.IOStreams :=
  {| iostreams.CanPrompt := true; iostreams.IsStdoutTTY := true;
     iostreams.Out := fun _ => None |}.

Definition pipe : iostreams.IOStreams :=
  {| iostreams.CanPrompt := false; iostreams.IsStdoutTTY := false;
     iostreams.Out := fun _ => None |}.

Definition factory (io : iostreams.IOStreams) : Factory :=
  {| HttpClient := Ok transport; IOStreams := io |}.

Definition client_New_ok (f : Factory) : result Client := Ok queriesClient.

(** Client construction that fails, as when the HTTP client cannot be
    built from the configuration. *)
Definition client_New_down (f : Factory) : result Client :=
  Err (Failure "client.New").

Definition urlExporter : Exporter :=
  {| Fields := ["url"];
     Write := fun d =>
       match d with
       | RepositoryData r => ("repository: " ++ queries.Repository_URL r, None)
       | TeamData t => ("team: " ++ queries.Team_URL t, None)
       end |}.

Definition repoFlags : flags :=
  {| flag_owner := "monalisa"; flag_repo := "my_repo"; flag_team := "";
     flag_exporter := None |}.

Definition teamFlags : flags :=
  {| flag_owner := "my_org"; flag_repo := ""; flag_team := "my_team";
     flag_exporter := None |}.

Definition bothFlags : flags :=
  {| flag_owner := "monalisa"; flag_repo := "my_repo"; flag_team := "my_team";
     flag_exporter := None |}.

Definition noTargetFlags : flags :=
  {| flag_owner := "monalisa"; flag_repo := ""; flag_team := "";
     flag_exporter := None |}.

Definition exportFlags : flags :=
  {| flag_owner := "monalisa"; flag_repo := "my_repo"; flag_team := "";
     flag_exporter := Some urlExporter |}.

Definition config (io : iostreams.IOStreams) (cl : Client) (fl : flags) : linkConfig :=
  {| httpClient := Ok transport; client := cl; opts := parsed fl; io := io |}.

(** A terminal whose writer gives up after four bytes. *)
Definition closedTerminal : iostreams.IOStreams :=
  {| iostreams.CanPrompt := true; iostreams.IsStdoutTTY := true;
     iostreams.Out := fun _ => Some (4%nat, Failure "write: broken pipe") |}.

(** An exporter that fails after writing a brace. *)
Definition failingExporter : Exporter :=
  {| Fields := ["url"];
     Write := fun _ => ("{", Some (Failure "export failed")) |}.

Definition failingExportFlags : flags :=
  {| flag_owner := "monalisa"; flag_repo := "my_repo"; flag_team := "";
     flag_exporter := Some failingExporter |}.

(** Both targets set, as [runLink] can be given them when called directly. *)
Definition bothTargets : linkConfig := config pipe queriesClient bothFlags.

(** A test hook that refuses every configuration. *)
Definition refusingHook (c : linkConfig) : goerror := Some (Failure "hook").
End Sample.

(** * Properties *)

(** ** The integer parser on 32 bits *)

Section ParseInt32.
Import strconv.

Local Abbreviation maxVal32 := 4294967295 (only parsing).

Lemma digits_acc_ge s : forall n v, 0 <= n -> digits_acc s n = Some v -> n <= v.
Proof.
  induction s as [|a s IH]; intros n v Hn; simpl.
  - intros [= <-]. lia.
  - unfold is_digit. destruct (_ && _) eqn:Hd; [|discriminate].
    apply andb_prop in Hd as [H1 H2].
    apply Z.leb_le in H1. apply Z.leb_le in H2.
    intros Hv. apply IH in Hv; lia.
Qed.

(** The digit loop computes the value of the digits as long as it
    fits 32 bits, reports a range error from the first prefix that
    does not, and a syntax error at a byte that is no digit. *)
Lemma ParseUint_loop_32 s : forall n, 0 <= n <= maxVal32 ->
  match digits_acc s n with
  | Some v =>
      ParseUint_loop maxVal32 s n =
        if v <=? maxVal32 then (v, None) else (maxVal32, Some ErrRange)
  | None =>
      ParseUint_loop maxVal32 s n = (0, Some ErrSyntax) \/
      ParseUint_loop maxVal32 s n = (maxVal32, Some ErrRange)
  end.
Proof.
  induction s as [|a s IH]; intros n Hn; simpl.
  - destruct (Z.leb_spec n 4294967295); [reflexivity | lia].
  - unfold is_digit.
    destruct ((48 <=? byte_of a) && (byte_of a <=? 57)) eqn:Hd.
    + apply andb_prop in Hd as [H1 H2].
      apply Z.leb_le in H1. apply Z.leb_le in H2.
      destruct (Z.leb_spec 10 (byte_of a - 48)); [lia|].
      unfold cutoff10, maxUint64.
      change (2 ^ 64 - 1) with 18446744073709551615.
      change (18446744073709551615 / 10 + 1) with 1844674407370955162.
      destruct (Z.leb_spec 1844674407370955162 n); [lia|].
      unfold uint64. change (2 ^ 64) with 18446744073709551616.
      rewrite (Z.mod_small (n * 10)) by lia.
      rewrite (Z.mod_small (n * 10 + _)) by lia.
      destruct (Z.ltb_spec (n * 10 + (byte_of a - 48)) (n * 10)); [lia|].
      simpl.
      destruct (Z.ltb_spec 4294967295 (n * 10 + (byte_of a - 48))) as [Hov|Hfit].
      * destruct (digits_acc s _) as [v|] eqn:Hv; [|auto].
        apply digits_acc_ge in Hv; [|lia].
        destruct (Z.leb_spec v 4294967295); [lia | reflexivity].
      * apply IH. lia.
    + destruct ((97 <=? lower (byte_of a)) && (lower (byte_of a) <=? 122)) eqn:Hl;
        [|auto].
      apply andb_prop in Hl as [H1 _]. apply Z.leb_le in H1.
      destruct (Z.leb_spec 10 (lower (byte_of a) - 97 + 10)); [auto | lia].
Qed.

Lemma ParseUint_32 s :
  match digits_value s with
  | Some v =>
      ParseUint s 32 = if v <=? maxVal32 then (v, None) else (maxVal32, Some ErrRange)
  | None =>
      ParseUint s 32 = (0, Some ErrSyntax) \/ ParseUint s 32 = (maxVal32, Some ErrRange)
  end.
Proof.
  destruct s as [|a s]; [left; reflexivity|].
  unfold digits_value, ParseUint.
  change (String.eqb (String a s) "") with false. cbv iota.
  change (uint64 (Z.shiftl 1 32 - 1)) with 4294967295.
  change ((32 <? 0) || (64 <? 32)) with false. cbv iota.
  apply (ParseUint_loop_32 (String a s) 0). lia.
Qed.

Lemma digits_value_nonneg s v : digits_value s = Some v -> 0 <= v.
Proof.
  destruct s as [|a s]; [discriminate|].
  unfold digits_value. apply digits_acc_ge. lia.
Qed.

(** How [ParseInt] continues after [ParseUint] on the digits [ds]. *)
Lemma ParseInt_32_signed (neg : bool) ds :
  let '(un, err) := ParseUint ds 32 in
  let stop := match err with Some ErrRange | None => false | Some _ => true end in
  let r :=
    if stop then (0, err)
    else if negb neg && (uint64 (Z.shiftl 1 (32 - 1)) <=? un)
         then (int64 (uint64 (Z.shiftl 1 (32 - 1)) - 1), Some ErrRange)
    else if neg && (uint64 (Z.shiftl 1 (32 - 1)) <? un)
         then (int64 (- int64 (uint64 (Z.shiftl 1 (32 - 1)))), Some ErrRange)
    else ((if neg then int64 (- int64 un) else int64 un), None) in
  match digits_value ds with
  | Some u =>
      let v := if neg then - u else u in
      if (-2147483648 <=? v) && (v <=? 2147483647) then r = (v, None)
      else snd r = Some ErrRange
  | None => snd r = Some ErrSyntax \/ snd r = Some ErrRange
  end.
Proof.
  pose proof (ParseUint_32 ds) as H.
  pose proof (digits_value_nonneg ds) as Hpos.
  change (uint64 (Z.shiftl 1 (32 - 1))) with 2147483648.
  change (int64 (2147483648 - 1)) with 2147483647.
  change (int64 (- int64 2147483648)) with (-2147483648).
  destruct (digits_value ds) as [u|].
  - specialize (Hpos u eq_refl). rewrite H.
    destruct (Z.leb_spec u 4294967295) as [Hu|Hu].
    + destruct neg; simpl.
      * destruct (Z.ltb_spec 2147483648 u);
          destruct (Z.leb_spec (-2147483648) (- u));
          destruct (Z.leb_spec (- u) 2147483647); simpl; try lia; try reflexivity.
        unfold int64. change (2 ^ 63) with 9223372036854775808.
        change (2 ^ 64) with 18446744073709551616.
        rewrite (Z.mod_small (u + _)) by lia.
        replace (u + 9223372036854775808 - 9223372036854775808) with u by lia.
        rewrite Z.mod_small by lia. f_equal. lia.
      * destruct (Z.leb_spec 2147483648 u);
          destruct (Z.leb_spec (-2147483648) u);
          destruct (Z.leb_spec u 2147483647); simpl; try lia; try reflexivity.
        unfold int64. change (2 ^ 63) with 9223372036854775808.
        change (2 ^ 64) with 18446744073709551616.
        rewrite Z.mod_small by lia. f_equal. lia.
    + destruct neg; simpl.
      * destruct (Z.leb_spec (-2147483648) (- u)); simpl; [lia | reflexivity].
      * destruct (Z.leb_spec u 2147483647); simpl; [lia|].
        rewrite andb_false_r. reflexivity.
  - destruct H as [-> | ->]; simpl; [auto|].
    destruct neg; simpl; auto.
Qed.

(** [ParseInt(s, 10, 32)] succeeds exactly on the numerals that denote
    an [int32], and then returns the integer denoted. *)
Lemma ParseInt_32 s :
  match numeral_value s with
  | Some v =>
      if (-2147483648 <=? v) && (v <=? 2147483647)
      then ParseInt s 32 = (v, None)
      else snd (ParseInt s 32) = Some ErrRange
  | None =>
      snd (ParseInt s 32) = Some ErrSyntax \/ snd (ParseInt s 32) = Some ErrRange
  end.
Proof.
  destruct s as [|c0 rest]; [left; reflexivity|].
  unfold numeral_value, ParseInt.
  destruct (Ascii.eqb c0 "+") eqn:Hplus; [|destruct (Ascii.eqb c0 "-") eqn:Hminus].
  - pose proof (ParseInt_32_signed false rest) as H.
    destruct (ParseUint rest 32) as [un err].
    change (if 32 =? 0 then 64 else 32) with 32.
    destruct (digits_value rest); exact H.
  - pose proof (ParseInt_32_signed true rest) as H.
    destruct (ParseUint rest 32) as [un err].
    change (if 32 =? 0 then 64 else 32) with 32.
    destruct (digits_value rest); exact H.
  - pose proof (ParseInt_32_signed false (String c0 rest)) as H.
    destruct (ParseUint (String c0 rest) 32) as [un err].
    change (if 32 =? 0 then 64 else 32) with 32.
    destruct (digits_value (String c0 rest)); exact H.
Qed.

End ParseInt32.

(** ** Sample runs *)

Example ParseInt_one : strconv.ParseInt "1" 32 = (1, None).
Proof. reflexivity. Qed.

Example ParseInt_min : strconv.ParseInt "-2147483648" 32 = (-2147483648, None).
Proof. vm_compute. reflexivity. Qed.

Example ParseInt_above :
  strconv.ParseInt "2147483648" 32 = (2147483647, Some strconv.ErrRange).
Proof. vm_compute. reflexivity. Qed.

Example ParseInt_letters : strconv.ParseInt "abc" 32 = (0, Some strconv.ErrSyntax).
Proof. vm_compute. reflexivity. Qed.

Example ParseInt_underscore : strconv.ParseInt "1_000" 32 = (0, Some strconv.ErrSyntax).
Proof. vm_compute. reflexivity. Qed.

Example ParseInt_sign_only : strconv.ParseInt "+" 32 = (0, Some strconv.ErrSyntax).
Proof. vm_compute. reflexivity. Qed.

Example link_repo_on_terminal :
  NewCmdLink Sample.client_New_ok (Sample.factory Sample.terminal) None
    Sample.repoFlags ["1"] start =
    ({| calls :=
          [CallClientNew;
           CallRunLink (built (Sample.factory Sample.terminal) Sample.queriesClient
                          (set_number (parsed Sample.repoFlags) 1));
           CallNewOwner true "monalisa";
           CallNewProject true {| queries.Login := "monalisa" |} 1 false;
           CallHttpClient;
           CallGitHubRepo (ghrepo.New "monalisa" "my_repo");
           CallMutate "LinkProjectV2ToRepository"
             {[ "input" :=
                  RepositoryInput
                    {| githubv4.LinkProjectV2ToRepositoryInput.ProjectID := "PVT_1";
                       githubv4.LinkProjectV2ToRepositoryInput.RepositoryID := "R_1";
                       githubv4.LinkProjectV2ToRepositoryInput.ClientMutationID :=
                         None |} ]};
           CallPrintResults Sample.repoURL];
        stdout := Sample.repoURL ++ fmt.newline |},
     Ok tt).
Proof. vm_compute. reflexivity. Qed.

Example link_team_through_pipe :
  let run := NewCmdLink Sample.client_New_ok (Sample.factory Sample.pipe) None
               Sample.teamFlags [] start in
  stdout (fst run) = "" /\ snd run = Ok tt /\
  steps (calls (fst run)) =
    [OwnerResolution; ProjectResolution; TargetLookup; LinkMutation].
Proof. vm_compute. repeat split; reflexivity. Qed.

Example link_repo_exported :
  let run := NewCmdLink Sample.client_New_ok (Sample.factory Sample.terminal) None
               Sample.exportFlags ["1"] start in
  stdout (fst run) = "repository: https://github.com/monalisa/my_repo" /\
  snd run = Ok tt /\ printed (calls (fst run)) = [].
Proof. vm_compute. repeat split; reflexivity. Qed.

Example two_arguments_are_not_read :
  snd (NewCmdLink Sample.client_New_ok (Sample.factory Sample.pipe)
         (Some (fun config => if number (opts config) =? 0 then None
                              else Some (Failure "number set")))
         Sample.repoFlags ["x"; "y"] start) = Ok tt.
Proof. vm_compute. reflexivity. Qed.

(** ** Running the monad *)

Ltac exec :=
  unfold NewCmdLink, RunE, runLink, linkRepo, linkTeam, printResults, Exporter_Write,
    Fprintf_Out, linkRepoArgs, linkTeamArgs, calling, bind, did, emit, check, ret, fail;
  simpl.

Lemma handed_over_app cs cs' : handed_over (cs ++ cs') = (handed_over cs ++ handed_over cs')%list.
Proof. apply flat_map_app. Qed.

Lemma mutations_app cs cs' : mutations (cs ++ cs') = (mutations cs ++ mutations cs')%list.
Proof. apply flat_map_app. Qed.

Lemma steps_app cs cs' : steps (cs ++ cs') = (steps cs ++ steps cs')%list.
Proof. apply flat_map_app. Qed.

Lemma printed_app cs cs' : printed (cs ++ cs') = (printed cs ++ printed cs')%list.
Proof. apply flat_map_app. Qed.

Section RunE_facts.
Variable client_New : Factory -> result Client.
Variable f : Factory.
Variable runF : option (linkConfig -> goerror).

(** A failure of [client.New] ends the command before any argument is read. *)
Lemma RunE_client_failure e opts0 args w :
  client_New f = Err e ->
  RunE client_New f runF opts0 args w =
    ({| calls := calls w ++ [CallClientNew]; stdout := stdout w |}, Err e).
Proof. intros H. exec. rewrite H. reflexivity. Qed.

(** A positional argument that [ParseInt] rejects ends it next. *)
Lemma RunE_invalid_number cl opts0 a w :
  client_New f = Ok cl ->
  snd (strconv.ParseInt a 32) <> None ->
  RunE client_New f runF opts0 [a] w =
    ({| calls := calls w ++ [CallClientNew]; stdout := stdout w |},
     Err (FlagError ("invalid number: " ++ a))).
Proof.
  intros H Hp. exec. rewrite H.
  destruct (strconv.ParseInt a 32) as [num [err|]]; [reflexivity|].
  simpl in Hp. congruence.
Qed.
End RunE_facts.

Lemma string_app_empty_r (s : string) : s ++ "" = s.
Proof.
  induction s as [|a s IH]; [reflexivity|].
  change (String a (s ++ "") = String a s). now rewrite IH.
Qed.

Lemma string_app_assoc (a b c : string) : (a ++ b) ++ c = a ++ (b ++ c).
Proof.
  induction a as [|x a IH]; [reflexivity|].
  change (String x ((a ++ b) ++ c) = String x (a ++ (b ++ c))). now rewrite IH.
Qed.

Lemma after_calls w cs : {| calls := calls w ++ cs; stdout := stdout w |} = after w cs "".
Proof. unfold after. now rewrite string_app_empty_r. Qed.

Lemma after_after w cs out cs' out' :
  after (after w cs out) cs' out' = after w (cs ++ cs') (out ++ out').
Proof. unfold after; simpl. now rewrite app_assoc, string_app_assoc. Qed.

(** ** linkRepo and linkTeam, path by path *)

Section Link_paths.
Variable c : api.Client.
Variable o : queries.Owner.
Variable config : linkConfig.
Variable w : world.

Lemma printResults_not_tty url :
  iostreams.IsStdoutTTY (io config) = false ->
  printResults config url w = (after w [CallPrintResults url] "", Ok tt).
Proof. intros H. exec. rewrite H. simpl. now rewrite after_calls. Qed.

Lemma printResults_tty_written url :
  iostreams.IsStdoutTTY (io config) = true ->
  iostreams.Out (io config) (fmt.line url) = None ->
  printResults config url w = (after w [CallPrintResults url] (fmt.line url), Ok tt).
Proof. intros H Ho. exec. rewrite H. simpl. rewrite Ho. reflexivity. Qed.

Lemma printResults_tty_failed url n e :
  iostreams.IsStdoutTTY (io config) = true ->
  iostreams.Out (io config) (fmt.line url) = Some (n, e) ->
  printResults config url w =
    (after w [CallPrintResults url] (prefix_bytes n (fmt.line url)), Err e).
Proof. intros H Ho. exec. rewrite H. simpl. rewrite Ho. reflexivity. Qed.

Lemma linkRepo_lookup_failure e :
  api.GitHubRepo c (repoTarget o config) = Err e ->
  linkRepo c o config w = (after w [CallGitHubRepo (repoTarget o config)] "", Err e).
Proof.
  intros H. unfold repoTarget in *. exec. rewrite H. now rewrite after_calls.
Qed.

Lemma linkRepo_found found :
  api.GitHubRepo c (repoTarget o config) = Ok found ->
  linkRepo c o config w =
    let sent := [CallGitHubRepo (repoTarget o config);
                 CallMutate "LinkProjectV2ToRepository"
                   (snd (linkRepoArgs (with_repoID config found)))] in
    match repoMutation config found with
    | (_, Some e) => (after w sent "", Err e)
    | (query, None) =>
        let entity := LinkProjectV2ToRepository_Repository query in
        match exporter (opts config) with
        | Some ex => Exporter_Write ex (io config) (RepositoryData entity) (after w sent "")
        | None =>
            printResults (with_repoID config found) (queries.Repository_URL entity)
              (after w sent "")
        end
    end.
Proof.
  intros H. unfold repoTarget, repoMutation in *.
  unfold linkRepo, calling, bind, did. simpl. rewrite H.
  rewrite <- app_assoc, after_calls. simpl app.
  destruct (Mutate _ _ _ _ _) as [query [e|]]; simpl; [reflexivity|].
  destruct (exporter (opts config)); reflexivity.
Qed.

Lemma linkTeam_lookup_failure e :
  api.OrganizationTeam c (teamOrg o) (team (opts config)) = Err e ->
  linkTeam c o config w =
    (after w [CallOrganizationTeam (teamOrg o) (team (opts config))] "", Err e).
Proof.
  intros H. unfold teamOrg in *. exec. rewrite H. now rewrite after_calls.
Qed.

Lemma linkTeam_found found :
  api.OrganizationTeam c (teamOrg o) (team (opts config)) = Ok found ->
  linkTeam c o config w =
    let sent := [CallOrganizationTeam (teamOrg o) (team (opts config));
                 CallMutate "LinkProjectV2ToTeam"
                   (snd (linkTeamArgs (with_teamID config found)))] in
    match teamMutation config found with
    | (_, Some e) => (after w sent "", Err e)
    | (query, None) =>
        let entity := LinkProjectV2ToTeam_Team query in
        match exporter (opts config) with
        | Some ex => Exporter_Write ex (io config) (TeamData entity) (after w sent "")
        | None =>
            printResults (with_teamID config found) (queries.Team_URL entity)
              (after w sent "")
        end
    end.
Proof.
  intros H. unfold teamOrg, teamMutation in *.
  unfold linkTeam, calling, bind, did. simpl. rewrite H.
  rewrite <- app_assoc, after_calls. simpl app.
  destruct (Mutate _ _ _ _ _) as [query [e|]]; simpl; [reflexivity|].
  destruct (exporter (opts config)); reflexivity.
Qed.

Lemma Exporter_Write_run ex data :
  Exporter_Write ex (io config) data w =
    (after w [CallExporterWrite data] (fst (Write ex data)),
     match snd (Write ex data) with
     | None => Ok tt
     | Some e => Err e
     end).
Proof.
  unfold Exporter_Write, bind, did, emit, check, ret, fail, after. simpl.
  destruct (Write ex data) as [bytes [e|]]; reflexivity.
Qed.

(** [runLink], up to the choice of the target. *)
Lemma runLink_owner_failure e :
  NewOwner (client config) (iostreams.CanPrompt (io config)) (owner (opts config)) = Err e ->
  runLink config w =
    (after w [CallNewOwner (iostreams.CanPrompt (io config)) (owner (opts config))] "",
     Err e).
Proof. intros H. exec. rewrite H. now rewrite after_calls. Qed.

Lemma runLink_project_failure own e :
  NewOwner (client config) (iostreams.CanPrompt (io config)) (owner (opts config)) = Ok own ->
  NewProject (client config) (iostreams.CanPrompt (io config)) own
    (number (opts config)) false = Err e ->
  runLink config w =
    (after w [CallNewOwner (iostreams.CanPrompt (io config)) (owner (opts config));
              CallNewProject (iostreams.CanPrompt (io config)) own
                (number (opts config)) false] "",
     Err e).
Proof.
  intros H1 H2. exec. rewrite H1. simpl. rewrite H2.
  now rewrite <- app_assoc, after_calls.
Qed.

Lemma runLink_httpClient_failure own p e :
  NewOwner (client config) (iostreams.CanPrompt (io config)) (owner (opts config)) = Ok own ->
  NewProject (client config) (iostreams.CanPrompt (io config)) own
    (number (opts config)) false = Ok p ->
  httpClient config = Err e ->
  runLink config w =
    (after w [CallNewOwner (iostreams.CanPrompt (io config)) (owner (opts config));
              CallNewProject (iostreams.CanPrompt (io config)) own
                (number (opts config)) false;
              CallHttpClient] "",
     Err e).
Proof.
  intros H1 H2 H3. exec. rewrite H1. simpl. rewrite H2. simpl. rewrite H3.
  now rewrite <- !app_assoc, after_calls.
Qed.

Lemma runLink_resolved own p h :
  NewOwner (client config) (iostreams.CanPrompt (io config)) (owner (opts config)) = Ok own ->
  NewProject (client config) (iostreams.CanPrompt (io config)) own
    (number (opts config)) false = Ok p ->
  httpClient config = Ok h ->
  runLink config w =
    let w3 :=
      after w [CallNewOwner (iostreams.CanPrompt (io config)) (owner (opts config));
               CallNewProject (iostreams.CanPrompt (io config)) own
                 (number (opts config)) false;
               CallHttpClient] "" in
    if nonempty (repo (opts config))
    then linkRepo (api.NewClientFromHTTP h) own (with_projectID config p) w3
    else if nonempty (team (opts config))
    then linkTeam (api.NewClientFromHTTP h) own (with_projectID config p) w3
    else (w3, Ok tt).
Proof.
  intros H1 H2 H3.
  unfold runLink, calling, bind, did, ret. simpl. rewrite H1. simpl. rewrite H2.
  simpl. rewrite H3. rewrite <- !app_assoc, after_calls. simpl app.
  destruct (nonempty (repo (opts config))); [reflexivity|].
  destruct (nonempty (team (opts config))); reflexivity.
Qed.
End Link_paths.

(** ** What a path leaves in the world *)

Lemma closing_mutations cs : closing cs -> mutations cs = [].
Proof. now destruct 1. Qed.

Lemma closing_steps cs : closing cs -> steps cs = [].
Proof. now destruct 1. Qed.

Lemma closing_handed_over cs : closing cs -> handed_over cs = [].
Proof. now destruct 1. Qed.

Lemma printResults_shape config url w :
  exists out r, printResults config url w = (after w [CallPrintResults url] out, r).
Proof.
  destruct (iostreams.IsStdoutTTY (io config)) eqn:Htty.
  - destruct (iostreams.Out (io config) (fmt.line url)) as [[n e]|] eqn:Hout.
    + rewrite (printResults_tty_failed _ _ _ n e Htty Hout). eauto.
    + rewrite (printResults_tty_written _ _ _ Htty Hout). eauto.
  - rewrite (printResults_not_tty _ _ _ Htty). eauto.
Qed.

Lemma linkRepo_shape c o config w found :
  api.GitHubRepo c (repoTarget o config) = Ok found ->
  exists tail out r,
    closing tail /\
    linkRepo c o config w =
      (after w ([CallGitHubRepo (repoTarget o config);
                 CallMutate "LinkProjectV2ToRepository"
                   (snd (linkRepoArgs (with_repoID config found)))] ++ tail) out, r).
Proof.
  intros H. rewrite (linkRepo_found _ _ _ _ _ H). cbv zeta.
  destruct (repoMutation config found) as [query [e|]].
  - exists [], "", (Err e). split; [constructor | reflexivity].
  - destruct (exporter (opts config)) as [ex|].
    + rewrite Exporter_Write_run, after_after.
      eexists _, _, _. split; [apply closing_export | reflexivity].
    + destruct (printResults_shape (with_repoID config found)
                  (queries.Repository_URL (LinkProjectV2ToRepository_Repository query))
                  (after w [CallGitHubRepo (repoTarget o config);
                            CallMutate "LinkProjectV2ToRepository"
                              (snd (linkRepoArgs (with_repoID config found)))] ""))
        as (out & r & ->).
      rewrite after_after.
      eexists _, _, _. split; [apply closing_print | reflexivity].
Qed.

Lemma linkTeam_shape c o config w found :
  api.OrganizationTeam c (teamOrg o) (team (opts config)) = Ok found ->
  exists tail out r,
    closing tail /\
    linkTeam c o config w =
      (after w ([CallOrganizationTeam (teamOrg o) (team (opts config));
                 CallMutate "LinkProjectV2ToTeam"
                   (snd (linkTeamArgs (with_teamID config found)))] ++ tail) out, r).
Proof.
  intros H. rewrite (linkTeam_found _ _ _ _ _ H). cbv zeta.
  destruct (teamMutation config found) as [query [e|]].
  - exists [], "", (Err e). split; [constructor | reflexivity].
  - destruct (exporter (opts config)) as [ex|].
    + rewrite Exporter_Write_run, after_after.
      eexists _, _, _. split; [apply closing_export | reflexivity].
    + destruct (printResults_shape (with_teamID config found)
                  (queries.Team_URL (LinkProjectV2ToTeam_Team query))
                  (after w [CallOrganizationTeam (teamOrg o) (team (opts config));
                            CallMutate "LinkProjectV2ToTeam"
                              (snd (linkTeamArgs (with_teamID config found)))] ""))
        as (out & r & ->).
      rewrite after_after.
      eexists _, _, _. split; [apply closing_print | reflexivity].
Qed.

(** The mutations of a run of [linkRepo] or [linkTeam] that found its target. *)
Lemma linkRepo_mutations c o config w found :
  api.GitHubRepo c (repoTarget o config) = Ok found ->
  mutations (calls (fst (linkRepo c o config w))) =
    (mutations (calls w) ++
     [("LinkProjectV2ToRepository", snd (linkRepoArgs (with_repoID config found)))])%list.
Proof.
  intros H. destruct (linkRepo_shape c o config w found H) as (tail & out & r & Hc & ->).
  unfold after. cbn [fst calls].
  rewrite !mutations_app, (closing_mutations _ Hc). reflexivity.
Qed.

Lemma linkTeam_mutations c o config w found :
  api.OrganizationTeam c (teamOrg o) (team (opts config)) = Ok found ->
  mutations (calls (fst (linkTeam c o config w))) =
    (mutations (calls w) ++
     [("LinkProjectV2ToTeam", snd (linkTeamArgs (with_teamID config found)))])%list.
Proof.
  intros H. destruct (linkTeam_shape c o config w found H) as (tail & out & r & Hc & ->).
  unfold after. cbn [fst calls].
  rewrite !mutations_app, (closing_mutations _ Hc). reflexivity.
Qed.

Lemma linkRepo_steps c o config w found :
  api.GitHubRepo c (repoTarget o config) = Ok found ->
  exists new,
    calls (fst (linkRepo c o config w)) = (calls w ++ new)%list /\
    steps new = [TargetLookup; LinkMutation] /\ handed_over new = [].
Proof.
  intros H. destruct (linkRepo_shape c o config w found H) as (tail & out & r & Hc & ->).
  eexists. split; [reflexivity|].
  rewrite steps_app, handed_over_app, (closing_steps _ Hc), (closing_handed_over _ Hc).
  split; reflexivity.
Qed.

Lemma linkTeam_steps c o config w found :
  api.OrganizationTeam c (teamOrg o) (team (opts config)) = Ok found ->
  exists new,
    calls (fst (linkTeam c o config w)) = (calls w ++ new)%list /\
    steps new = [TargetLookup; LinkMutation] /\ handed_over new = [].
Proof.
  intros H. destruct (linkTeam_shape c o config w found H) as (tail & out & r & Hc & ->).
  eexists. split; [reflexivity|].
  rewrite steps_app, handed_over_app, (closing_steps _ Hc), (closing_handed_over _ Hc).
  split; reflexivity.
Qed.

(** ** The properties of the specification *)

(** C1. Once the owner, the project and the target are resolved, the run
    sends one mutation whose variables hold, under the single key
    ["input"], exactly the resolved project identifier and the resolved
    repository (or team) identifier, with no client mutation id;
    [linkRepoArgs] and [linkTeamArgs] build that input from
    [opts.projectID] and [opts.repoID] (or [opts.teamID]) and nothing else. *)
Theorem payload_holds_exactly_the_resolved_ids config w own p h :
  NewOwner (client config) (iostreams.CanPrompt (io config)) (owner (opts config)) = Ok own ->
  NewProject (client config) (iostreams.CanPrompt (io config)) own
    (number (opts config)) false = Ok p ->
  httpClient config = Ok h ->
  (forall cfg,
      linkRepoArgs cfg =
        ({| LinkProjectV2ToRepository_Repository := {| queries.Repository_URL := "" |} |},
         {[ "input" :=
              RepositoryInput
                {| githubv4.LinkProjectV2ToRepositoryInput.ProjectID := projectID (opts cfg);
                   githubv4.LinkProjectV2ToRepositoryInput.RepositoryID := repoID (opts cfg);
                   githubv4.LinkProjectV2ToRepositoryInput.ClientMutationID := None |} ]})) /\
  (forall cfg,
      linkTeamArgs cfg =
        ({| LinkProjectV2ToTeam_Team := {| queries.Team_URL := "" |} |},
         {[ "input" :=
              TeamInput
                {| githubv4.LinkProjectV2ToTeamInput.ProjectID := projectID (opts cfg);
                   githubv4.LinkProjectV2ToTeamInput.TeamID := teamID (opts cfg);
                   githubv4.LinkProjectV2ToTeamInput.ClientMutationID := None |} ]})) /\
  (forall found,
      nonempty (repo (opts config)) = true ->
      api.GitHubRepo (api.NewClientFromHTTP h) (repoTarget own config) = Ok found ->
      mutations (calls (fst (runLink config w))) =
        (mutations (calls w) ++
         [("LinkProjectV2ToRepository",
           {[ "input" :=
                RepositoryInput
                  {| githubv4.LinkProjectV2ToRepositoryInput.ProjectID :=
                       queries.Project_ID p;
                     githubv4.LinkProjectV2ToRepositoryInput.RepositoryID :=
                       api.Repository_ID found;
                     githubv4.LinkProjectV2ToRepositoryInput.ClientMutationID :=
                       None |} ]})])%list) /\
  (forall found,
      nonempty (repo (opts config)) = false ->
      nonempty (team (opts config)) = true ->
      api.OrganizationTeam (api.NewClientFromHTTP h) (teamOrg own) (team (opts config))
        = Ok found ->
      mutations (calls (fst (runLink config w))) =
        (mutations (calls w) ++
         [("LinkProjectV2ToTeam",
           {[ "input" :=
                TeamInput
                  {| githubv4.LinkProjectV2ToTeamInput.ProjectID := queries.Project_ID p;
                     githubv4.LinkProjectV2ToTeamInput.TeamID := api.OrgTeam_ID found;
                     githubv4.LinkProjectV2ToTeamInput.ClientMutationID := None |} ]})])%list).
Proof.
  intros Ho Hp Hh. split; [reflexivity|]. split; [reflexivity|].
  rewrite (runLink_resolved config w own p h Ho Hp Hh). cbv zeta.
  split; intros found.
  - intros -> Hf.
    rewrite (linkRepo_mutations _ own (with_projectID config p) _ found Hf).
    unfold after. cbn [calls]. rewrite mutations_app. cbn [mutations flat_map app].
    rewrite app_nil_r. reflexivity.
  - intros -> -> Hf.
    rewrite (linkTeam_mutations _ own (with_projectID config p) _ found Hf).
    unfold after. cbn [calls]. rewrite mutations_app. cbn [mutations flat_map app].
    rewrite app_nil_r. reflexivity.
Qed.

Lemma payload_holds_exactly_the_resolved_ids_witness :
  mutations (calls (fst (runLink
    (Sample.config Sample.terminal Sample.queriesClient Sample.repoFlags) start))) =
    [("LinkProjectV2ToRepository",
      {[ "input" :=
           RepositoryInput
             {| githubv4.LinkProjectV2ToRepositoryInput.ProjectID := "PVT_1";
                githubv4.LinkProjectV2ToRepositoryInput.RepositoryID := "R_1";
                githubv4.LinkProjectV2ToRepositoryInput.ClientMutationID := None |} ]})].
Proof.
  exact (proj1 (proj2 (proj2
    (payload_holds_exactly_the_resolved_ids
       (Sample.config Sample.terminal Sample.queriesClient Sample.repoFlags) start
       {| queries.Login := "monalisa" |} {| queries.Project_ID := "PVT_1" |}
       Sample.transport eq_refl eq_refl eq_refl)))
    {| api.Repository_ID := "R_1" |} eq_refl eq_refl).
Defined.

(** C6. A run that reaches the mutation (the target was found) calls
    [Mutate] exactly once, whatever the answer, and when [Mutate] fails
    the run ends there with that very error: nothing is retried, written
    or wrapped. *)
Theorem one_mutation_and_its_error_verbatim c o config w :
  (forall found,
      api.GitHubRepo c (repoTarget o config) = Ok found ->
      mutations (calls (fst (linkRepo c o config w))) =
        (mutations (calls w) ++
         [("LinkProjectV2ToRepository",
           snd (linkRepoArgs (with_repoID config found)))])%list /\
      forall e,
        snd (repoMutation config found) = Some e ->
        linkRepo c o config w =
          (after w [CallGitHubRepo (repoTarget o config);
                    CallMutate "LinkProjectV2ToRepository"
                      (snd (linkRepoArgs (with_repoID config found)))] "",
           Err e)) /\
  (forall found,
      api.OrganizationTeam c (teamOrg o) (team (opts config)) = Ok found ->
      mutations (calls (fst (linkTeam c o config w))) =
        (mutations (calls w) ++
         [("LinkProjectV2ToTeam",
           snd (linkTeamArgs (with_teamID config found)))])%list /\
      forall e,
        snd (teamMutation config found) = Some e ->
        linkTeam c o config w =
          (after w [CallOrganizationTeam (teamOrg o) (team (opts config));
                    CallMutate "LinkProjectV2ToTeam"
                      (snd (linkTeamArgs (with_teamID config found)))] "",
           Err e)).
Proof.
  split; intros found Hf.
  - split; [exact (linkRepo_mutations c o config w found Hf)|].
    intros e He. rewrite (linkRepo_found _ _ _ _ _ Hf). cbv zeta.
    destruct (repoMutation config found) as [query err]. simpl in He. now subst err.
  - split; [exact (linkTeam_mutations c o config w found Hf)|].
    intros e He. rewrite (linkTeam_found _ _ _ _ _ Hf). cbv zeta.
    destruct (teamMutation config found) as [query err]. simpl in He. now subst err.
Qed.

Lemma one_mutation_and_its_error_verbatim_witness :
  length (mutations (calls (fst (linkRepo (api.NewClientFromHTTP Sample.transport)
    {| queries.Login := "monalisa" |}
    (Sample.config Sample.pipe Sample.refusingClient Sample.repoFlags) start)))) = 1%nat /\
  snd (linkRepo (api.NewClientFromHTTP Sample.transport)
    {| queries.Login := "monalisa" |}
    (Sample.config Sample.pipe Sample.refusingClient Sample.repoFlags) start) =
    Err (Failure "mutation refused").
Proof.
  destruct (proj1 (one_mutation_and_its_error_verbatim
    (api.NewClientFromHTTP Sample.transport) {| queries.Login := "monalisa" |}
    (Sample.config Sample.pipe Sample.refusingClient Sample.repoFlags) start)
    {| api.Repository_ID := "R_1" |} eq_refl) as [Hm He].
  split.
  - rewrite Hm. reflexivity.
  - rewrite (He (Failure "mutation refused") eq_refl). reflexivity.
Defined.

(** C7. The network operations of a run are made one after the other in
    the order owner resolution, project resolution, target lookup, link
    mutation; when one of them fails the run returns its error at once
    and makes none of the later ones. *)
Theorem network_calls_in_order config w :
  exists new,
    calls (fst (runLink config w)) = (calls w ++ new)%list /\
    steps new `prefix_of`
      [OwnerResolution; ProjectResolution; TargetLookup; LinkMutation] /\
    (forall e,
        NewOwner (client config) (iostreams.CanPrompt (io config)) (owner (opts config))
          = Err e ->
        snd (runLink config w) = Err e /\ steps new = [OwnerResolution]) /\
    (forall own,
        NewOwner (client config) (iostreams.CanPrompt (io config)) (owner (opts config))
          = Ok own ->
        (forall e,
            NewProject (client config) (iostreams.CanPrompt (io config)) own
              (number (opts config)) false = Err e ->
            snd (runLink config w) = Err e /\
            steps new = [OwnerResolution; ProjectResolution]) /\
        (forall p,
            NewProject (client config) (iostreams.CanPrompt (io config)) own
              (number (opts config)) false = Ok p ->
            (forall e,
                httpClient config = Err e ->
                snd (runLink config w) = Err e /\
                steps new = [OwnerResolution; ProjectResolution]) /\
            (forall h,
                httpClient config = Ok h ->
                (nonempty (repo (opts config)) = true ->
                 (forall e,
                     api.GitHubRepo (api.NewClientFromHTTP h) (repoTarget own config)
                       = Err e ->
                     snd (runLink config w) = Err e /\
                     steps new = [OwnerResolution; ProjectResolution; TargetLookup]) /\
                 (forall found,
                     api.GitHubRepo (api.NewClientFromHTTP h) (repoTarget own config)
                       = Ok found ->
                     steps new =
                       [OwnerResolution; ProjectResolution; TargetLookup; LinkMutation] /\
                     forall e,
                       snd (repoMutation (with_projectID config p) found) = Some e ->
                       snd (runLink config w) = Err e)) /\
                (nonempty (repo (opts config)) = false ->
                 nonempty (team (opts config)) = true ->
                 (forall e,
                     api.OrganizationTeam (api.NewClientFromHTTP h) (teamOrg own)
                       (team (opts config)) = Err e ->
                     snd (runLink config w) = Err e /\
                     steps new = [OwnerResolution; ProjectResolution; TargetLookup]) /\
                 (forall found,
                     api.OrganizationTeam (api.NewClientFromHTTP h) (teamOrg own)
                       (team (opts config)) = Ok found ->
                     steps new =
                       [OwnerResolution; ProjectResolution; TargetLookup; LinkMutation] /\
                     forall e,
                       snd (teamMutation (with_projectID config p) found) = Some e ->
                       snd (runLink config w) = Err e))))).
Proof.
  destruct (NewOwner (client config) (iostreams.CanPrompt (io config))
              (owner (opts config))) as [own|e] eqn:Ho.
  2: { rewrite (runLink_owner_failure config w e Ho).
       eexists. split; [reflexivity|]. split; [now eexists|].
       split; [intros ? [= <-]; now split | discriminate]. }
  destruct (NewProject (client config) (iostreams.CanPrompt (io config)) own
              (number (opts config)) false) as [p|e] eqn:Hp.
  2: { rewrite (runLink_project_failure config w own e Ho Hp).
       eexists. split; [reflexivity|]. split; [now eexists|].
       split; [discriminate|]. intros ? [= <-]. rewrite Hp.
       split; [intros ? [= <-]; now split | discriminate]. }
  destruct (httpClient config) as [h|e] eqn:Hh.
  2: { rewrite (runLink_httpClient_failure config w own p e Ho Hp Hh).
       eexists. split; [reflexivity|]. split; [now eexists|].
       split; [discriminate|]. intros ? [= <-]. rewrite Hp.
       split; [discriminate|]. intros ? [= <-].
       split; [intros ? [= <-]; now split | discriminate]. }
  rewrite (runLink_resolved config w own p h Ho Hp Hh). cbv zeta.
  destruct (nonempty (repo (opts config))) eqn:Hr.
  - destruct (api.GitHubRepo (api.NewClientFromHTTP h) (repoTarget own config))
      as [found|e] eqn:Hf.
    + destruct (linkRepo_shape (api.NewClientFromHTTP h) own (with_projectID config p)
                  (after w [CallNewOwner (iostreams.CanPrompt (io config))
                              (owner (opts config));
                            CallNewProject (iostreams.CanPrompt (io config)) own
                              (number (opts config)) false;
                            CallHttpClient] "") found Hf)
        as (tail & out & r & Hc & Hrun).
      pose proof (linkRepo_found (api.NewClientFromHTTP h) own (with_projectID config p)
                  (after w [CallNewOwner (iostreams.CanPrompt (io config))
                              (owner (opts config));
                            CallNewProject (iostreams.CanPrompt (io config)) own
                              (number (opts config)) false;
                            CallHttpClient] "") found Hf) as Hcase.
      cbv zeta in Hcase.
      assert (Hsteps : forall l, closing l ->
                steps ([CallNewOwner (iostreams.CanPrompt (io config))
                          (owner (opts config));
                        CallNewProject (iostreams.CanPrompt (io config)) own
                          (number (opts config)) false;
                        CallHttpClient] ++
                       [CallGitHubRepo (repoTarget own (with_projectID config p));
                        CallMutate "LinkProjectV2ToRepository"
                          (snd (linkRepoArgs
                                  (with_repoID (with_projectID config p) found)))] ++ l)
                = [OwnerResolution; ProjectResolution; TargetLookup; LinkMutation]).
      { intros l Hl. rewrite !steps_app, (closing_steps _ Hl). reflexivity. }
      eexists. split.
      { rewrite Hrun. rewrite after_after. unfold after. cbn [fst calls]. reflexivity. }
      rewrite (Hsteps _ Hc).
      split; [now exists []|].
      split; [discriminate|]. intros ? [= <-]. rewrite Hp.
      split; [discriminate|]. intros ? [= <-].
      split; [discriminate|]. intros ? [= <-].
      split; [|discriminate]. intros _. rewrite Hf.
      split; [discriminate|]. intros ? [= <-].
      split; [reflexivity|]. intros e He.
      rewrite Hcase.
      destruct (repoMutation (with_projectID config p) found) as [query err].
      simpl in He. now subst err.
    + rewrite (linkRepo_lookup_failure _ own (with_projectID config p) _ e Hf).
      rewrite after_after.
      eexists. split; [reflexivity|]. split; [now eexists|].
      split; [discriminate|]. intros ? [= <-]. rewrite Hp.
      split; [discriminate|]. intros ? [= <-].
      split; [discriminate|]. intros ? [= <-].
      split; [|discriminate]. intros _. rewrite Hf.
      split; [intros ? [= <-]; now split | discriminate].
  - destruct (nonempty (team (opts config))) eqn:Ht.
    + destruct (api.OrganizationTeam (api.NewClientFromHTTP h) (teamOrg own)
                  (team (opts config))) as [found|e] eqn:Hf.
      * destruct (linkTeam_shape (api.NewClientFromHTTP h) own (with_projectID config p)
                    (after w [CallNewOwner (iostreams.CanPrompt (io config))
                                (owner (opts config));
                              CallNewProject (iostreams.CanPrompt (io config)) own
                                (number (opts config)) false;
                              CallHttpClient] "") found Hf)
          as (tail & out & r & Hc & Hrun).
        pose proof (linkTeam_found (api.NewClientFromHTTP h) own (with_projectID config p)
                    (after w [CallNewOwner (iostreams.CanPrompt (io config))
                                (owner (opts config));
                              CallNewProject (iostreams.CanPrompt (io config)) own
                                (number (opts config)) false;
                              CallHttpClient] "") found Hf) as Hcase.
        cbv zeta in Hcase.
        assert (Hsteps : forall l, closing l ->
                  steps ([CallNewOwner (iostreams.CanPrompt (io config))
                            (owner (opts config));
                          CallNewProject (iostreams.CanPrompt (io config)) own
                            (number (opts config)) false;
                          CallHttpClient] ++
                         [CallOrganizationTeam (teamOrg own)
                            (team (opts (with_projectID config p)));
                          CallMutate "LinkProjectV2ToTeam"
                            (snd (linkTeamArgs
                                    (with_teamID (with_projectID config p) found)))] ++ l)
                  = [OwnerResolution; ProjectResolution; TargetLookup; LinkMutation]).
        { intros l Hl. rewrite !steps_app, (closing_steps _ Hl). reflexivity. }
        eexists. split.
        { rewrite Hrun. rewrite after_after. unfold after. cbn [fst calls]. reflexivity. }
        rewrite (Hsteps _ Hc).
        split; [now exists []|].
        split; [discriminate|]. intros ? [= <-]. rewrite Hp.
        split; [discriminate|]. intros ? [= <-].
        split; [discriminate|]. intros ? [= <-].
        split; [discriminate|]. intros _ _. rewrite Hf.
        split; [discriminate|]. intros ? [= <-].
        split; [reflexivity|]. intros e He.
        rewrite Hcase.
        destruct (teamMutation (with_projectID config p) found) as [query err].
        simpl in He. now subst err.
      * rewrite (linkTeam_lookup_failure _ own (with_projectID config p) _ e Hf).
        rewrite after_after.
        eexists. split; [reflexivity|]. split; [now eexists|].
        split; [discriminate|]. intros ? [= <-]. rewrite Hp.
        split; [discriminate|]. intros ? [= <-].
        split; [discriminate|]. intros ? [= <-].
        split; [discriminate|]. intros _ _. rewrite Hf.
        split; [intros ? [= <-]; now split | discriminate].
    + eexists. split; [reflexivity|]. split; [now eexists|].
      split; [discriminate|]. intros ? [= <-]. rewrite Hp.
      split; [discriminate|]. intros ? [= <-].
      split; [discriminate|]. intros ? [= <-].
      split; discriminate.
Qed.

Lemma network_calls_in_order_witness :
  steps (calls (fst (runLink
    (Sample.config Sample.pipe Sample.refusingClient Sample.teamFlags) start))) =
    [OwnerResolution; ProjectResolution; TargetLookup; LinkMutation] /\
  snd (runLink (Sample.config Sample.pipe Sample.refusingClient Sample.teamFlags) start) =
    Err (Failure "mutation refused").
Proof.
  destruct (network_calls_in_order
    (Sample.config Sample.pipe Sample.refusingClient Sample.teamFlags) start)
    as (new & Hcalls & _ & _ & Hown).
  destruct (Hown {| queries.Login := "my_org" |} eq_refl) as [_ Hproject].
  destruct (Hproject {| queries.Project_ID := "PVT_1" |} eq_refl) as [_ Hhttp].
  destruct (Hhttp Sample.transport eq_refl) as [_ Hteam].
  destruct (Hteam eq_refl eq_refl) as [_ Hfound].
  destruct (Hfound {| api.OrgTeam_ID := "T_1" |} eq_refl) as [Hsteps Herr].
  split.
  - rewrite Hcalls. exact Hsteps.
  - exact (Herr (Failure "mutation refused") eq_refl).
Defined.

(** ** The output of a run that linked *)

Lemma exported_app cs cs' :
  exported (cs ++ cs') = (exported cs ++ exported cs')%list.
Proof. apply flat_map_app. Qed.

Lemma runLink_linked config w data :
  linked config data ->
  exists path,
    printed path = [] /\ exported path = [] /\
    runLink config w =
      match exporter (opts config) with
      | Some ex => Exporter_Write ex (io config) data (after w path "")
      | None => printResults config (url_of data) (after w path "")
      end.
Proof.
  intros [own p h found query Ho Hp Hh Hr Hf Hm | own p h found query Ho Hp Hh Hr Ht Hf Hm];
    rewrite (runLink_resolved config w own p h Ho Hp Hh); cbv zeta; rewrite Hr.
  - rewrite (linkRepo_found _ own (with_projectID config p) _ found Hf). cbv zeta.
    rewrite Hm, after_after.
    eexists. split; [|split; [|reflexivity]]; reflexivity.
  - rewrite Ht.
    rewrite (linkTeam_found _ own (with_projectID config p) _ found Hf). cbv zeta.
    rewrite Hm, after_after.
    eexists. split; [|split; [|reflexivity]]; reflexivity.
Qed.

(** Every run of [runLink] either stops with an error before any output,
    or has no target to link, or links. *)
Lemma runLink_cases config w :
  (exists cs e, runLink config w = (after w cs "", Err e)) \/
  (nonempty (repo (opts config)) = false /\ nonempty (team (opts config)) = false /\
   exists cs, runLink config w = (after w cs "", Ok tt)) \/
  (exists data, linked config data).
Proof.
  destruct (NewOwner (client config) (iostreams.CanPrompt (io config))
              (owner (opts config))) as [own|e] eqn:Ho.
  2: { left. rewrite (runLink_owner_failure config w e Ho). eauto. }
  destruct (NewProject (client config) (iostreams.CanPrompt (io config)) own
              (number (opts config)) false) as [p|e] eqn:Hp.
  2: { left. rewrite (runLink_project_failure config w own e Ho Hp). eauto. }
  destruct (httpClient config) as [h|e] eqn:Hh.
  2: { left. rewrite (runLink_httpClient_failure config w own p e Ho Hp Hh). eauto. }
  rewrite (runLink_resolved config w own p h Ho Hp Hh). cbv zeta.
  destruct (nonempty (repo (opts config))) eqn:Hr.
  - destruct (api.GitHubRepo (api.NewClientFromHTTP h) (repoTarget own config))
      as [found|e] eqn:Hf.
    + destruct (repoMutation (with_projectID config p) found) as [query [e|]] eqn:Hm.
      * left. rewrite (linkRepo_found _ own (with_projectID config p) _ found Hf).
        cbv zeta. rewrite Hm, after_after. eauto.
      * right. right. eexists. eapply linked_repo; eassumption.
    + left. rewrite (linkRepo_lookup_failure _ own (with_projectID config p) _ e Hf).
      rewrite after_after. eauto.
  - destruct (nonempty (team (opts config))) eqn:Ht.
    + destruct (api.OrganizationTeam (api.NewClientFromHTTP h) (teamOrg own)
                  (team (opts config))) as [found|e] eqn:Hf.
      * destruct (teamMutation (with_projectID config p) found) as [query [e|]] eqn:Hm.
        -- left. rewrite (linkTeam_found _ own (with_projectID config p) _ found Hf).
           cbv zeta. rewrite Hm, after_after. eauto.
        -- right. right. eexists. eapply linked_team; eassumption.
      * left. rewrite (linkTeam_lookup_failure _ own (with_projectID config p) _ e Hf).
        rewrite after_after. eauto.
    + right. left. eauto.
Qed.

(** A successful run with a target has linked. *)
Lemma runLink_success_linked config w :
  snd (runLink config w) = Ok tt ->
  nonempty (repo (opts config)) = true \/ nonempty (team (opts config)) = true ->
  exists data, linked config data.
Proof.
  intros Hok Htarget.
  destruct (runLink_cases config w) as [(cs & e & H) | [(Hr & Ht & _) | H]].
  - rewrite H in Hok. discriminate.
  - destruct Htarget; congruence.
  - exact H.
Qed.

Lemma stdout_after w cs out : stdout (after w cs out) = stdout w ++ out.
Proof. reflexivity. Qed.

Lemma calls_after w cs out : calls (after w cs out) = (calls w ++ cs)%list.
Proof. reflexivity. Qed.

(** C4. In a successful run for which an exporter was selected, what
    reaches standard output is what the exporter writes for the entity
    returned by the mutation, the exporter is handed that entity and
    nothing else, and [printResults] is not called. *)
Theorem exporter_serializes_the_returned_entity config w ex :
  exporter (opts config) = Some ex ->
  snd (runLink config w) = Ok tt ->
  nonempty (repo (opts config)) = true \/ nonempty (team (opts config)) = true ->
  exists data,
    linked config data /\
    stdout (fst (runLink config w)) = stdout w ++ fst (Write ex data) /\
    exported (calls (fst (runLink config w))) = (exported (calls w) ++ [data])%list /\
    printed (calls (fst (runLink config w))) = printed (calls w).
Proof.
  intros Hex Hok Htarget.
  destruct (runLink_success_linked config w Hok Htarget) as [data Hl].
  exists data. split; [exact Hl|].
  destruct (runLink_linked config w data Hl) as (path & Hp & He & ->).
  rewrite Hex, Exporter_Write_run, after_after. cbn [fst].
  rewrite stdout_after, calls_after.
  rewrite printed_app, exported_app, printed_app, exported_app, Hp, He.
  cbn [printed exported flat_map app]. rewrite app_nil_r.
  repeat split; reflexivity.
Qed.

Lemma exporter_serializes_the_returned_entity_witness :
  exists data,
    linked (Sample.config Sample.pipe Sample.queriesClient Sample.exportFlags) data /\
    stdout (fst (runLink
      (Sample.config Sample.pipe Sample.queriesClient Sample.exportFlags) start)) =
      stdout start ++ fst (Write Sample.urlExporter data) /\
    exported (calls (fst (runLink
      (Sample.config Sample.pipe Sample.queriesClient Sample.exportFlags) start))) =
      (exported (calls start) ++ [data])%list /\
    printed (calls (fst (runLink
      (Sample.config Sample.pipe Sample.queriesClient Sample.exportFlags) start))) =
      printed (calls start).
Proof.
  apply (exporter_serializes_the_returned_entity
    (Sample.config Sample.pipe Sample.queriesClient Sample.exportFlags) start
    Sample.urlExporter).
  - reflexivity.
  - vm_compute. reflexivity.
  - left. reflexivity.
Defined.

(** C5. With no exporter: when standard output is not a terminal the run
    writes nothing to it, and a run that linked returns nil; when it is a
    terminal a successful run writes the URL of the entity returned by
    the mutation, then one newline, and nothing more. *)
Theorem url_printed_only_on_a_terminal config w :
  exporter (opts config) = None ->
  (iostreams.IsStdoutTTY (io config) = false ->
   stdout (fst (runLink config w)) = stdout w /\
   forall data, linked config data -> snd (runLink config w) = Ok tt) /\
  (iostreams.IsStdoutTTY (io config) = true ->
   snd (runLink config w) = Ok tt ->
   nonempty (repo (opts config)) = true \/ nonempty (team (opts config)) = true ->
   exists data,
     linked config data /\
     stdout (fst (runLink config w)) = stdout w ++ (url_of data ++ fmt.newline) /\
     printed (calls (fst (runLink config w))) = (printed (calls w) ++ [url_of data])%list).
Proof.
  intros Hex. split.
  - intros Htty. split.
    + destruct (runLink_cases config w) as [(cs & e & ->) | [(_ & _ & cs & ->) | [data Hl]]].
      * cbn [fst]. rewrite stdout_after. apply string_app_empty_r.
      * cbn [fst]. rewrite stdout_after. apply string_app_empty_r.
      * destruct (runLink_linked config w data Hl) as (path & _ & _ & ->).
        rewrite Hex, (printResults_not_tty config _ _ Htty), after_after. cbn [fst].
        rewrite stdout_after. apply string_app_empty_r.
    + intros data Hl.
      destruct (runLink_linked config w data Hl) as (path & _ & _ & ->).
      now rewrite Hex, (printResults_not_tty config _ _ Htty).
  - intros Htty Hok Htarget.
    destruct (runLink_success_linked config w Hok Htarget) as [data Hl].
    exists data. split; [exact Hl|].
    destruct (runLink_linked config w data Hl) as (path & Hp & _ & Hrun).
    rewrite Hrun, Hex in Hok |- *.
    destruct (iostreams.Out (io config) (fmt.line (url_of data))) as [[n e]|] eqn:Hout.
    + rewrite (printResults_tty_failed config _ _ n e Htty Hout) in Hok. discriminate.
    + rewrite (printResults_tty_written config _ _ Htty Hout), after_after. cbn [fst].
      rewrite stdout_after, calls_after, printed_app, printed_app, Hp.
      split; reflexivity.
Qed.

Lemma url_printed_only_on_a_terminal_witness :
  stdout (fst (runLink
    (Sample.config Sample.pipe Sample.queriesClient Sample.repoFlags) start)) = "" /\
  snd (runLink
    (Sample.config Sample.pipe Sample.queriesClient Sample.repoFlags) start) = Ok tt /\
  exists data,
    linked (Sample.config Sample.terminal Sample.queriesClient Sample.teamFlags) data /\
    stdout (fst (runLink
      (Sample.config Sample.terminal Sample.queriesClient Sample.teamFlags) start)) =
      stdout start ++ (url_of data ++ fmt.newline) /\
    printed (calls (fst (runLink
      (Sample.config Sample.terminal Sample.queriesClient Sample.teamFlags) start))) =
      (printed (calls start) ++ [url_of data])%list.
Proof.
  split; [|split].
  - exact (proj1 (proj1 (url_printed_only_on_a_terminal
      (Sample.config Sample.pipe Sample.queriesClient Sample.repoFlags) start eq_refl)
      eq_refl)).
  - apply (proj2 (proj1 (url_printed_only_on_a_terminal
      (Sample.config Sample.pipe Sample.queriesClient Sample.repoFlags) start eq_refl)
      eq_refl) (RepositoryData {| queries.Repository_URL := Sample.repoURL |})).
    apply (linked_repo _ {| queries.Login := "monalisa" |}
             {| queries.Project_ID := "PVT_1" |} Sample.transport
             {| api.Repository_ID := "R_1" |}
             {| LinkProjectV2ToRepository_Repository :=
                  {| queries.Repository_URL := Sample.repoURL |} |}); reflexivity.
  - apply (proj2 (url_printed_only_on_a_terminal
      (Sample.config Sample.terminal Sample.queriesClient Sample.teamFlags) start eq_refl)).
    + reflexivity.
    + vm_compute. reflexivity.
    + right. reflexivity.
Defined.

(** ** The command: argument checks and hand-over *)

(** [runLink] hands nothing over itself. *)
Lemma runLink_handed_over config w :
  handed_over (calls (fst (runLink config w))) = handed_over (calls w).
Proof.
  assert (Hnone : forall cs out,
            handed_over cs = [] ->
            handed_over (calls (after w cs out)) = handed_over (calls w)).
  { intros cs out H. rewrite calls_after, handed_over_app, H. apply app_nil_r. }
  destruct (NewOwner (client config) (iostreams.CanPrompt (io config))
              (owner (opts config))) as [own|e] eqn:Ho.
  2: { rewrite (runLink_owner_failure config w e Ho). now apply Hnone. }
  destruct (NewProject (client config) (iostreams.CanPrompt (io config)) own
              (number (opts config)) false) as [p|e] eqn:Hp.
  2: { rewrite (runLink_project_failure config w own e Ho Hp). now apply Hnone. }
  destruct (httpClient config) as [h|e] eqn:Hh.
  2: { rewrite (runLink_httpClient_failure config w own p e Ho Hp Hh). now apply Hnone. }
  rewrite (runLink_resolved config w own p h Ho Hp Hh). cbv zeta.
  destruct (nonempty (repo (opts config))) eqn:Hr.
  - destruct (api.GitHubRepo (api.NewClientFromHTTP h) (repoTarget own config))
      as [found|e] eqn:Hf.
    + destruct (linkRepo_steps (api.NewClientFromHTTP h) own (with_projectID config p)
                  (after w [CallNewOwner (iostreams.CanPrompt (io config))
                              (owner (opts config));
                            CallNewProject (iostreams.CanPrompt (io config)) own
                              (number (opts config)) false;
                            CallHttpClient] "") found Hf) as (new & -> & _ & Hnew).
      rewrite handed_over_app, Hnew, app_nil_r. now apply Hnone.
    + rewrite (linkRepo_lookup_failure _ own (with_projectID config p) _ e Hf).
      rewrite after_after. now apply Hnone.
  - destruct (nonempty (team (opts config))) eqn:Ht.
    + destruct (api.OrganizationTeam (api.NewClientFromHTTP h) (teamOrg own)
                  (team (opts config))) as [found|e] eqn:Hf.
      * destruct (linkTeam_steps (api.NewClientFromHTTP h) own (with_projectID config p)
                    (after w [CallNewOwner (iostreams.CanPrompt (io config))
                                (owner (opts config));
                              CallNewProject (iostreams.CanPrompt (io config)) own
                                (number (opts config)) false;
                              CallHttpClient] "") found Hf) as (new & -> & _ & Hnew).
        rewrite handed_over_app, Hnew, app_nil_r. now apply Hnone.
      * rewrite (linkTeam_lookup_failure _ own (with_projectID config p) _ e Hf).
        rewrite after_after. now apply Hnone.
    + now apply Hnone.
Qed.

Section Command.
Variable client_New : Factory -> result Client.
Variable f : Factory.
Variable runF : option (linkConfig -> goerror).

(** [RunE] once the client is built and the arguments are read into
    [opts1]: the two checks on the target flags, then the hand-over. *)
Lemma RunE_after_arguments cl opts0 opts1 args w :
  client_New f = Ok cl ->
  match args with
  | [a] => exists num, strconv.ParseInt a 32 = (num, None) /\
                       opts1 = set_number opts0 (int32 num)
  | _ => opts1 = opts0
  end ->
  RunE client_New f runF opts0 args w =
    if nonempty (repo opts1) && nonempty (team opts1) then
      (after w [CallClientNew] "", Err (Errorf "specify only one of `--repo` or `--team`"))
    else if String.eqb (repo opts1) "" && String.eqb (team opts1) "" then
      (after w [CallClientNew] "", Err (Errorf "specify either `--repo` or `--team`"))
    else
      match runF with
      | Some hook =>
          (after w [CallClientNew; CallRunF (built f cl opts1)] "",
           match hook (built f cl opts1) with None => Ok tt | Some e => Err e end)
      | None =>
          runLink (built f cl opts1)
            (after w [CallClientNew; CallRunLink (built f cl opts1)] "")
      end.
Proof.
  intros Hcl Hargs. unfold built.
  destruct args as [|a [|b l]];
    [subst opts1 | destruct Hargs as (num & Hp & ->) | subst opts1];
    unfold RunE, calling, bind, did, check, fail, ret; cbn [calls stdout];
    rewrite Hcl; try rewrite Hp; cbv beta iota; cbn [opts];
    (destruct (nonempty (repo _) && nonempty (team _));
       [now rewrite after_calls|]);
    (destruct (String.eqb (repo _) "" && String.eqb (team _) "");
       [now rewrite after_calls|]);
    (destruct runF as [hook|]; cbn [calls stdout]; rewrite <- app_assoc, after_calls;
       [destruct (hook _)|]; reflexivity).
Qed.

Lemma NewCmdLink_client_failure e fl args w :
  client_New f = Err e ->
  NewCmdLink client_New f runF fl args w = (after w [CallClientNew] "", Err e).
Proof.
  intros H. unfold NewCmdLink.
  now rewrite (RunE_client_failure client_New f runF e _ args w H), after_calls.
Qed.

Lemma NewCmdLink_invalid_number cl fl a w :
  client_New f = Ok cl ->
  snd (strconv.ParseInt a 32) <> None ->
  NewCmdLink client_New f runF fl [a] w =
    (after w [CallClientNew] "", Err (FlagError ("invalid number: " ++ a))).
Proof.
  intros H Hp. unfold NewCmdLink.
  now rewrite (RunE_invalid_number client_New f runF cl _ a w H Hp), after_calls.
Qed.

(** The arguments either stop the command or leave the options. *)
Lemma NewCmdLink_arguments cl fl args w :
  client_New f = Ok cl ->
  (exists a, args = [a] /\
     NewCmdLink client_New f runF fl args w =
       (after w [CallClientNew] "", Err (FlagError ("invalid number: " ++ a)))) \/
  (exists opts1,
     repo opts1 = flag_repo fl /\ team opts1 = flag_team fl /\
     NewCmdLink client_New f runF fl args w =
       if nonempty (repo opts1) && nonempty (team opts1) then
         (after w [CallClientNew] "",
          Err (Errorf "specify only one of `--repo` or `--team`"))
       else if String.eqb (repo opts1) "" && String.eqb (team opts1) "" then
         (after w [CallClientNew] "",
          Err (Errorf "specify either `--repo` or `--team`"))
       else
         match runF with
         | Some hook =>
             (after w [CallClientNew; CallRunF (built f cl opts1)] "",
              match hook (built f cl opts1) with None => Ok tt | Some e => Err e end)
         | None =>
             runLink (built f cl opts1)
               (after w [CallClientNew; CallRunLink (built f cl opts1)] "")
         end).
Proof.
  intros Hcl.
  destruct args as [|a [|b l]].
  - right. exists (parsed fl). split; [reflexivity|]. split; [reflexivity|].
    now apply RunE_after_arguments.
  - destruct (strconv.ParseInt a 32) as [num [err|]] eqn:Hp.
    + left. exists a. split; [reflexivity|].
      apply (NewCmdLink_invalid_number cl); [exact Hcl|]. now rewrite Hp.
    + right. exists (set_number (parsed fl) (int32 num)).
      split; [reflexivity|]. split; [reflexivity|].
      apply RunE_after_arguments; [exact Hcl|]. now exists num.
  - right. exists (parsed fl). split; [reflexivity|]. split; [reflexivity|].
    now apply RunE_after_arguments.
Qed.
End Command.

Lemma nonempty_eqb s : String.eqb s "" = negb (nonempty s).
Proof. unfold nonempty. now rewrite negb_involutive. Qed.

Lemma handed_over_after w cs out :
  handed_over cs = [] -> handed_over (calls (after w cs out)) = handed_over (calls w).
Proof. intros H. rewrite calls_after, handed_over_app, H. apply app_nil_r. Qed.




Lemma not_numeral_rejected a :
  strconv.is_numeral a = false -> snd (strconv.ParseInt a 32) <> None.
Proof.
  unfold strconv.is_numeral. intros H.
  pose proof (ParseInt_32 a) as Hp.
  destruct (strconv.numeral_value a); [discriminate|].
  destruct Hp as [-> | ->]; discriminate.
Qed.

Lemma out_of_int32_rejected a v :
  strconv.numeral_value a = Some v ->
  v < -2147483648 \/ 2147483647 < v ->
  snd (strconv.ParseInt a 32) = Some strconv.ErrRange.
Proof.
  intros Hv Hout. pose proof (ParseInt_32 a) as Hp. rewrite Hv in Hp.
  destruct (Z.leb_spec (-2147483648) v); destruct (Z.leb_spec v 2147483647);
    simpl in Hp; try exact Hp; lia.
Qed.

(** C3, as stated, fails when the client cannot be built: the argument
    is never read and the error returned does not mention it. *)
Lemma non_numeric_argument_but_no_client :
  strconv.is_numeral "abc" = false /\
  NewCmdLink Sample.client_New_down (Sample.factory Sample.pipe) None
    Sample.repoFlags ["abc"] start =
    ({| calls := [CallClientNew]; stdout := "" |}, Err (Failure "client.New")) /\
  ~ (forall client_New f runF fl a w,
        strconv.is_numeral a = false ->
        exists e, snd (NewCmdLink client_New f runF fl [a] w) = Err e /\
                  usage_error e = true).
Proof.
  split; [reflexivity|]. split; [reflexivity|].
  intros H.
  destruct (H Sample.client_New_down (Sample.factory Sample.pipe) None
              Sample.repoFlags "abc" start eq_refl) as (e & He & Hu).
  vm_compute in He. injection He as <-. discriminate Hu.
Qed.

(** C3, amended. When the client is built and the single positional
    argument is not a decimal numeral, the command fails with the usage
    error ["invalid number: "] followed by the argument, having called
    nothing but [client.New]: neither [runLink] nor [runF] is invoked. *)
Theorem non_numeric_argument_rejected client_New f runF fl a w cl :
  client_New f = Ok cl ->
  strconv.is_numeral a = false ->
  NewCmdLink client_New f runF fl [a] w =
    (after w [CallClientNew] "", Err (cmdutil.FlagErrorf ("invalid number: " ++ a))) /\
  usage_error (cmdutil.FlagErrorf ("invalid number: " ++ a)) = true /\
  handed_over (calls (fst (NewCmdLink client_New f runF fl [a] w))) =
    handed_over (calls w).
Proof.
  intros Hcl Ha.
  rewrite (NewCmdLink_invalid_number client_New f runF cl fl a w Hcl
             (not_numeral_rejected a Ha)).
  split; [reflexivity|]. split; [reflexivity|]. now apply handed_over_after.
Qed.

Lemma non_numeric_argument_rejected_witness :
  NewCmdLink Sample.client_New_ok (Sample.factory Sample.terminal) None
    Sample.repoFlags ["x"] start =
    (after start [CallClientNew] "", Err (FlagError "invalid number: x")).
Proof.
  exact (proj1 (non_numeric_argument_rejected Sample.client_New_ok
    (Sample.factory Sample.terminal) None Sample.repoFlags "x" start
    Sample.queriesClient eq_refl eq_refl)).
Defined.

(** C8, as stated, fails when the client cannot be built: a numeral
    beyond 32 bits is then not even parsed. *)
Lemma numeral_beyond_int32_but_no_client :
  strconv.numeral_value "3000000000" = Some 3000000000 /\
  NewCmdLink Sample.client_New_down (Sample.factory Sample.pipe) None
    Sample.repoFlags ["3000000000"] start =
    ({| calls := [CallClientNew]; stdout := "" |}, Err (Failure "client.New")) /\
  ~ (forall client_New f runF fl a v w,
        strconv.numeral_value a = Some v ->
        v < -2147483648 \/ 2147483647 < v ->
        snd (NewCmdLink client_New f runF fl [a] w) =
          Err (FlagError ("invalid number: " ++ a))).
Proof.
  split; [reflexivity|]. split; [reflexivity|].
  intros H.
  specialize (H Sample.client_New_down (Sample.factory Sample.pipe) None
                Sample.repoFlags "3000000000" 3000000000 start eq_refl).
  vm_compute in H. discriminate H; now right.
Qed.

(** C8, amended. When the client is built, a positional argument that is
    a decimal numeral outside the [int32] range makes [ParseInt] report a
    range error, and the command fails with the same ["invalid number: "]
    usage error as for an argument that is no numeral. *)
Theorem numeral_beyond_int32_rejected client_New f runF fl a v w cl :
  client_New f = Ok cl ->
  strconv.numeral_value a = Some v ->
  v < -2147483648 \/ 2147483647 < v ->
  snd (strconv.ParseInt a 32) = Some strconv.ErrRange /\
  NewCmdLink client_New f runF fl [a] w =
    (after w [CallClientNew] "", Err (cmdutil.FlagErrorf ("invalid number: " ++ a))) /\
  forall b,
    strconv.is_numeral b = false ->
    NewCmdLink client_New f runF fl [b] w =
      (after w [CallClientNew] "", Err (cmdutil.FlagErrorf ("invalid number: " ++ b))).
Proof.
  intros Hcl Hv Hout.
  pose proof (out_of_int32_rejected a v Hv Hout) as Hrange.
  split; [exact Hrange|]. split.
  - apply (NewCmdLink_invalid_number client_New f runF cl fl a w Hcl).
    now rewrite Hrange.
  - intros b Hb.
    apply (NewCmdLink_invalid_number client_New f runF cl fl b w Hcl).
    now apply not_numeral_rejected.
Qed.

Lemma numeral_beyond_int32_rejected_witness :
  NewCmdLink Sample.client_New_ok (Sample.factory Sample.terminal) None
    Sample.teamFlags ["-3000000000"] start =
    (after start [CallClientNew] "", Err (FlagError "invalid number: -3000000000")).
Proof.
  exact (proj1 (proj2 (numeral_beyond_int32_rejected Sample.client_New_ok
    (Sample.factory Sample.terminal) None Sample.teamFlags "-3000000000"
    (-3000000000) start Sample.queriesClient eq_refl eq_refl
    (or_introl eq_refl)))).
Defined.

(** C10, as stated, fails when the client cannot be built: with a
    non-numeric argument and both target flags the command reports
    neither the invalid number nor the flags, but the client failure. *)
Lemma invalid_number_not_first_without_client :
  strconv.is_numeral "1x" = false /\
  NewCmdLink Sample.client_New_down (Sample.factory Sample.terminal) None
    Sample.bothFlags ["1x"] start =
    ({| calls := [CallClientNew]; stdout := "" |}, Err (Failure "client.New")) /\
  ~ (forall client_New f runF fl a w,
        strconv.is_numeral a = false ->
        nonempty (flag_repo fl) = nonempty (flag_team fl) ->
        snd (NewCmdLink client_New f runF fl [a] w) =
          Err (FlagError ("invalid number: " ++ a))).
Proof.
  split; [reflexivity|]. split; [reflexivity|].
  intros H.
  specialize (H Sample.client_New_down (Sample.factory Sample.terminal) None
                Sample.bothFlags "1x" start eq_refl eq_refl).
  vm_compute in H. discriminate H.
Qed.

(** C10, amended. When the client is built and the positional argument
    is not a decimal numeral, the command reports the invalid number
    whatever the target flags are, in particular with both or with
    neither: the outcome does not depend on the flags, and it is never
    one of the two errors of the target-flag check. *)
Theorem invalid_number_before_target_flags client_New f runF a w cl :
  client_New f = Ok cl ->
  strconv.is_numeral a = false ->
  forall fl,
    snd (NewCmdLink client_New f runF fl [a] w) =
      Err (FlagError ("invalid number: " ++ a)) /\
    snd (NewCmdLink client_New f runF fl [a] w) <>
      Err (Errorf "specify only one of `--repo` or `--team`") /\
    snd (NewCmdLink client_New f runF fl [a] w) <>
      Err (Errorf "specify either `--repo` or `--team`") /\
    forall fl',
      NewCmdLink client_New f runF fl' [a] w = NewCmdLink client_New f runF fl [a] w.
Proof.
  intros Hcl Ha fl.
  pose proof (fun fl0 => NewCmdLink_invalid_number client_New f runF cl fl0 a w Hcl
                           (not_numeral_rejected a Ha)) as Hrun.
  rewrite (Hrun fl). cbn [snd].
  split; [reflexivity|]. split; [discriminate|]. split; [discriminate|].
  intros fl'. exact (Hrun fl').
Qed.

Lemma invalid_number_before_target_flags_witness :
  snd (NewCmdLink Sample.client_New_ok (Sample.factory Sample.pipe) None
         Sample.bothFlags ["1x"] start) = Err (FlagError "invalid number: 1x") /\
  snd (NewCmdLink Sample.client_New_ok (Sample.factory Sample.pipe) None
         Sample.noTargetFlags ["1x"] start) = Err (FlagError "invalid number: 1x").
Proof.
  split.
  - exact (proj1 (invalid_number_before_target_flags Sample.client_New_ok
      (Sample.factory Sample.pipe) None "1x" start Sample.queriesClient
      eq_refl eq_refl Sample.bothFlags)).
  - exact (proj1 (invalid_number_before_target_flags Sample.client_New_ok
      (Sample.factory Sample.pipe) None "1x" start Sample.queriesClient
      eq_refl eq_refl Sample.noTargetFlags)).
Defined.

(** C9. The argument ["0"] and no argument at all give the same run:
    same calls, same output, same result.  In both, every configuration
    handed to [runF] or [runLink] has [opts.number = 0]. *)
Theorem zero_is_no_number client_New f runF fl w :
  NewCmdLink client_New f runF fl ["0"] w = NewCmdLink client_New f runF fl [] w /\
  exists handed,
    handed_over (calls (fst (NewCmdLink client_New f runF fl [] w))) =
      (handed_over (calls w) ++ handed)%list /\
    Forall (fun config => number (opts config) = 0) handed.
Proof.
  split; [reflexivity|].
  destruct (client_New f) as [cl|e] eqn:Hcl.
  2: { rewrite (NewCmdLink_client_failure client_New f runF e fl [] w Hcl).
       exists []. split; [|constructor].
       rewrite app_nil_r. now apply handed_over_after. }
  unfold NewCmdLink.
  rewrite (RunE_after_arguments client_New f runF cl (parsed fl) (parsed fl) [] w Hcl
             eq_refl).
  destruct (nonempty (repo (parsed fl)) && nonempty (team (parsed fl))).
  { exists []. split; [|constructor]. rewrite app_nil_r. now apply handed_over_after. }
  destruct (String.eqb (repo (parsed fl)) "" && String.eqb (team (parsed fl)) "").
  { exists []. split; [|constructor]. rewrite app_nil_r. now apply handed_over_after. }
  exists [built f cl (parsed fl)]. split; [|repeat constructor].
  destruct runF as [hook|].
  - cbn [fst]. rewrite calls_after, handed_over_app. reflexivity.
  - rewrite runLink_handed_over, calls_after, handed_over_app. reflexivity.
Qed.

(** ** Further properties of the command *)

Lemma int32_of_int32 v : -2147483648 <= v <= 2147483647 -> int32 v = v.
Proof.
  intros H. unfold int32.
  change (2 ^ 31) with 2147483648. change (2 ^ 32) with 4294967296.
  rewrite Z.mod_small; lia.
Qed.

Lemma nonempty_false s : nonempty s = false -> s = "".
Proof.
  unfold nonempty. intros H. apply negb_false_iff in H. now apply String.eqb_eq.
Qed.

Lemma exactly_one_target r t :
  xorb (nonempty r) (nonempty t) = true ->
  nonempty r && nonempty t = false /\ String.eqb r "" && String.eqb t "" = false.
Proof.
  rewrite !nonempty_eqb. destruct (nonempty r), (nonempty t); simpl; auto; discriminate.
Qed.

Lemma steps_after w cs out :
  steps cs = [] -> steps (calls (after w cs out)) = steps (calls w).
Proof. intros H. rewrite calls_after, steps_app, H. apply app_nil_r. Qed.

Lemma mutations_after w cs out :
  mutations cs = [] -> mutations (calls (after w cs out)) = mutations (calls w).
Proof. intros H. rewrite calls_after, mutations_app, H. apply app_nil_r. Qed.

(** X1. Positional arguments are read only when there is exactly one:
    with two or more the command behaves as with none, the project
    number stays 0 and no argument is parsed or rejected. *)
Theorem arguments_beyond_one_are_ignored client_New f runF fl args w :
  length args <> 1%nat ->
  NewCmdLink client_New f runF fl args w = NewCmdLink client_New f runF fl [] w.
Proof.
  intros H. destruct args as [|a [|b l]]; [reflexivity | now contradict H | reflexivity].
Qed.

Lemma arguments_beyond_one_are_ignored_witness :
  NewCmdLink Sample.client_New_ok (Sample.factory Sample.pipe) None Sample.repoFlags
    ["x"; "7"] start =
  NewCmdLink Sample.client_New_ok (Sample.factory Sample.pipe) None Sample.repoFlags
    [] start.
Proof.
  apply (arguments_beyond_one_are_ignored Sample.client_New_ok
           (Sample.factory Sample.pipe) None Sample.repoFlags ["x"; "7"] start).
  discriminate.
Defined.

(** X2. With the client built and exactly one target flag set, a single
    positional argument reaches [runF] or [runLink] exactly when it is a
    decimal numeral (optional sign, digits, leading zeros allowed) that
    denotes an [int32]; the configuration handed over then carries the
    integer denoted as [opts.number], the flags are unchanged and the
    three identifiers are still empty. *)
Theorem number_is_the_value_of_the_numeral client_New f runF fl a w cl :
  client_New f = Ok cl ->
  xorb (nonempty (flag_repo fl)) (nonempty (flag_team fl)) = true ->
  (forall v,
      strconv.numeral_value a = Some v ->
      -2147483648 <= v <= 2147483647 ->
      handed_over (calls (fst (NewCmdLink client_New f runF fl [a] w))) =
        (handed_over (calls w) ++ [built f cl (set_number (parsed fl) v)])%list) /\
  (handed_over (calls (fst (NewCmdLink client_New f runF fl [a] w))) <>
     handed_over (calls w) ->
   exists v, strconv.numeral_value a = Some v /\ -2147483648 <= v <= 2147483647).
Proof.
  intros Hcl Hone.
  pose proof (ParseInt_32 a) as Hp.
  split.
  - intros v Hv Hrange. rewrite Hv in Hp.
    destruct (Z.leb_spec (-2147483648) v); [|lia].
    destruct (Z.leb_spec v 2147483647); [|lia].
    simpl in Hp. unfold NewCmdLink.
    rewrite (RunE_after_arguments client_New f runF cl (parsed fl)
               (set_number (parsed fl) v) [a] w Hcl).
    2: { exists v. split; [exact Hp|]. now rewrite int32_of_int32. }
    cbn [repo team set_number parsed].
    destruct (exactly_one_target _ _ Hone) as [-> ->].
    destruct runF as [hook|].
    + cbn [fst]. rewrite calls_after, handed_over_app. reflexivity.
    + rewrite runLink_handed_over, calls_after, handed_over_app. reflexivity.
  - intros Hover.
    assert (Hrejected : snd (strconv.ParseInt a 32) <> None -> False).
    { intros Hrej. apply Hover.
      rewrite (NewCmdLink_invalid_number client_New f runF cl fl a w Hcl Hrej).
      now apply handed_over_after. }
    destruct (strconv.numeral_value a) as [v|].
    + exists v. split; [reflexivity|].
      destruct (Z.leb_spec (-2147483648) v); destruct (Z.leb_spec v 2147483647);
        simpl in Hp; try lia; exfalso; apply Hrejected; now rewrite Hp.
    + exfalso. apply Hrejected. destruct Hp as [-> | ->]; discriminate.
Qed.

Lemma number_is_the_value_of_the_numeral_witness :
  handed_over (calls (fst (NewCmdLink Sample.client_New_ok
    (Sample.factory Sample.pipe) None Sample.teamFlags ["+007"] start))) =
    [built (Sample.factory Sample.pipe) Sample.queriesClient
       (set_number (parsed Sample.teamFlags) 7)].
Proof.
  apply (proj1 (number_is_the_value_of_the_numeral Sample.client_New_ok
    (Sample.factory Sample.pipe) None Sample.teamFlags "+007" start
    Sample.queriesClient eq_refl eq_refl) 7); [reflexivity | lia].
Defined.

(** X3. When the test hook [runF] is given, [runLink] is not run: the
    command makes no network call, sends no mutation and writes nothing;
    it either stops at one of its own checks with an error, or hands one
    configuration to the hook and returns what the hook returns. *)
Theorem hook_stands_in_for_the_run client_New f hook fl args w :
  stdout (fst (NewCmdLink client_New f (Some hook) fl args w)) = stdout w /\
  steps (calls (fst (NewCmdLink client_New f (Some hook) fl args w))) = steps (calls w) /\
  mutations (calls (fst (NewCmdLink client_New f (Some hook) fl args w))) =
    mutations (calls w) /\
  ((handed_over (calls (fst (NewCmdLink client_New f (Some hook) fl args w))) =
      handed_over (calls w) /\
    exists e, snd (NewCmdLink client_New f (Some hook) fl args w) = Err e) \/
   (exists config,
      handed_over (calls (fst (NewCmdLink client_New f (Some hook) fl args w))) =
        (handed_over (calls w) ++ [config])%list /\
      snd (NewCmdLink client_New f (Some hook) fl args w) =
        match hook config with
        | None => Ok tt
        | Some e => Err e
        end)).
Proof.
  assert (Hstop : forall e,
    NewCmdLink client_New f (Some hook) fl args w = (after w [CallClientNew] "", Err e) ->
    stdout (fst (NewCmdLink client_New f (Some hook) fl args w)) = stdout w /\
    steps (calls (fst (NewCmdLink client_New f (Some hook) fl args w))) = steps (calls w) /\
    mutations (calls (fst (NewCmdLink client_New f (Some hook) fl args w))) =
      mutations (calls w) /\
    ((handed_over (calls (fst (NewCmdLink client_New f (Some hook) fl args w))) =
        handed_over (calls w) /\
      exists e, snd (NewCmdLink client_New f (Some hook) fl args w) = Err e) \/
     (exists config,
        handed_over (calls (fst (NewCmdLink client_New f (Some hook) fl args w))) =
          (handed_over (calls w) ++ [config])%list /\
        snd (NewCmdLink client_New f (Some hook) fl args w) =
          match hook config with
          | None => Ok tt
          | Some e => Err e
          end))).
  { intros e ->. cbn [fst snd].
    split; [rewrite stdout_after; apply string_app_empty_r|].
    split; [now apply steps_after|].
    split; [now apply mutations_after|].
    left. split; [now apply handed_over_after | now exists e]. }
  destruct (client_New f) as [cl|e] eqn:Hcl.
  2: { apply (Hstop e). now apply NewCmdLink_client_failure. }
  destruct (NewCmdLink_arguments client_New f (Some hook) cl fl args w Hcl)
    as [(a & _ & Hrun) | (opts1 & _ & _ & Hrun)].
  { now apply (Hstop _ Hrun). }
  destruct (nonempty (repo opts1) && nonempty (team opts1)).
  { now apply (Hstop _ Hrun). }
  destruct (String.eqb (repo opts1) "" && String.eqb (team opts1) "").
  { now apply (Hstop _ Hrun). }
  rewrite Hrun. cbn [fst snd].
  split; [rewrite stdout_after; apply string_app_empty_r|].
  split; [now apply steps_after|].
  split; [now apply mutations_after|].
  right. exists (built f cl opts1). split; [|reflexivity].
  rewrite calls_after, handed_over_app. reflexivity.
Qed.

(** What [runLink] sends: nothing, or the one mutation of the target it
    chose, the repository whenever a repository name is set. *)
Lemma runLink_mutations config w :
  exists sent,
    mutations (calls (fst (runLink config w))) = (mutations (calls w) ++ sent)%list /\
    (sent = [] \/
     (exists v, nonempty (repo (opts config)) = true /\
                sent = [("LinkProjectV2ToRepository", v)]) \/
     (exists v, nonempty (repo (opts config)) = false /\
                nonempty (team (opts config)) = true /\
                sent = [("LinkProjectV2ToTeam", v)])).
Proof.
  assert (Hstop : forall cs out (r : result unit),
            mutations cs = [] ->
            exists sent,
              mutations (calls (fst (after w cs out, r)))
                = (mutations (calls w) ++ sent)%list /\
              (sent = [] \/
               (exists v, nonempty (repo (opts config)) = true /\
                          sent = [("LinkProjectV2ToRepository", v)]) \/
               (exists v, nonempty (repo (opts config)) = false /\
                          nonempty (team (opts config)) = true /\
                          sent = [("LinkProjectV2ToTeam", v)]))).
  { intros cs out r H. exists []. split; [|now left].
    cbn [fst]. rewrite app_nil_r. now apply mutations_after. }
  destruct (NewOwner (client config) (iostreams.CanPrompt (io config))
              (owner (opts config))) as [own|e] eqn:Ho.
  2: { rewrite (runLink_owner_failure config w e Ho). now apply Hstop. }
  destruct (NewProject (client config) (iostreams.CanPrompt (io config)) own
              (number (opts config)) false) as [p|e] eqn:Hp.
  2: { rewrite (runLink_project_failure config w own e Ho Hp). now apply Hstop. }
  destruct (httpClient config) as [h|e] eqn:Hh.
  2: { rewrite (runLink_httpClient_failure config w own p e Ho Hp Hh). now apply Hstop. }
  rewrite (runLink_resolved config w own p h Ho Hp Hh). cbv zeta.
  destruct (nonempty (repo (opts config))) eqn:Hr.
  - destruct (api.GitHubRepo (api.NewClientFromHTTP h) (repoTarget own config))
      as [found|e] eqn:Hf.
    + rewrite (linkRepo_mutations _ own (with_projectID config p) _ found Hf).
      rewrite mutations_after by reflexivity.
      eexists. split; [reflexivity|]. right. left. now eexists.
    + rewrite (linkRepo_lookup_failure _ own (with_projectID config p) _ e Hf).
      rewrite after_after. now apply Hstop.
  - destruct (nonempty (team (opts config))) eqn:Ht.
    + destruct (api.OrganizationTeam (api.NewClientFromHTTP h) (teamOrg own)
                  (team (opts config))) as [found|e] eqn:Hf.
      * rewrite (linkTeam_mutations _ own (with_projectID config p) _ found Hf).
        rewrite mutations_after by reflexivity.
        eexists. split; [reflexivity|]. right. right. now eexists.
      * rewrite (linkTeam_lookup_failure _ own (with_projectID config p) _ e Hf).
        rewrite after_after. now apply Hstop.
    + now apply Hstop.
Qed.

(** X4. One invocation of the command sends at most one mutation, and
    which one is fixed by the target flags: a repository link only when
    [--repo] is set and [--team] is not, a team link only when [--team]
    is set and [--repo] is not.  It never sends both. *)
Theorem at_most_one_mutation_per_invocation client_New f runF fl args w :
  exists sent,
    mutations (calls (fst (NewCmdLink client_New f runF fl args w))) =
      (mutations (calls w) ++ sent)%list /\
    (sent = [] \/
     (exists v, sent = [("LinkProjectV2ToRepository", v)] /\
                nonempty (flag_repo fl) = true /\ flag_team fl = "") \/
     (exists v, sent = [("LinkProjectV2ToTeam", v)] /\
                flag_repo fl = "" /\ nonempty (flag_team fl) = true)).
Proof.
  assert (Hstop : forall cs out (r : result unit),
            NewCmdLink client_New f runF fl args w = (after w cs out, r) ->
            mutations cs = [] ->
            exists sent,
              mutations (calls (fst (NewCmdLink client_New f runF fl args w))) =
                (mutations (calls w) ++ sent)%list /\
              (sent = [] \/
               (exists v, sent = [("LinkProjectV2ToRepository", v)] /\
                          nonempty (flag_repo fl) = true /\ flag_team fl = "") \/
               (exists v, sent = [("LinkProjectV2ToTeam", v)] /\
                          flag_repo fl = "" /\ nonempty (flag_team fl) = true))).
  { intros cs out r -> H. exists []. split; [|now left].
    cbn [fst]. rewrite app_nil_r. now apply mutations_after. }
  destruct (client_New f) as [cl|e] eqn:Hcl.
  2: { eapply Hstop;
         [exact (NewCmdLink_client_failure client_New f runF e fl args w Hcl)
         | reflexivity]. }
  destruct (NewCmdLink_arguments client_New f runF cl fl args w Hcl)
    as [(a & _ & Hrun) | (opts1 & Hr & Ht & Hrun)].
  { eapply Hstop; [exact Hrun | reflexivity]. }
  destruct (nonempty (repo opts1) && nonempty (team opts1)) eqn:Hboth.
  { eapply Hstop; [exact Hrun | reflexivity]. }
  destruct (String.eqb (repo opts1) "" && String.eqb (team opts1) "") eqn:Hneither.
  { eapply Hstop; [exact Hrun | reflexivity]. }
  destruct runF as [hook|].
  { eapply Hstop; [exact Hrun | reflexivity]. }
  rewrite Hrun.
  destruct (runLink_mutations (built f cl opts1)
              (after w [CallClientNew; CallRunLink (built f cl opts1)] ""))
    as (sent & Hsent & Hkind).
  exists sent. rewrite Hsent, mutations_after by reflexivity.
  split; [reflexivity|].
  cbn [opts built] in Hkind. rewrite Hr, Ht in *.
  destruct Hkind as [-> | [(v & H1 & ->) | (v & H1 & H2 & ->)]].
  - now left.
  - right. left. exists v. split; [reflexivity|]. split; [exact H1|].
    rewrite H1 in Hboth. simpl in Hboth. now apply nonempty_false.
  - right. right. exists v. split; [reflexivity|]. split; [|exact H2].
    now apply nonempty_false.
Qed.

Lemma repo_lookups_app cs cs' :
  repo_lookups (cs ++ cs') = (repo_lookups cs ++ repo_lookups cs')%list.
Proof. apply flat_map_app. Qed.

Lemma team_lookups_app cs cs' :
  team_lookups (cs ++ cs') = (team_lookups cs ++ team_lookups cs')%list.
Proof. apply flat_map_app. Qed.

Lemma closing_lookups cs : closing cs -> repo_lookups cs = [] /\ team_lookups cs = [].
Proof. now destruct 1. Qed.

Lemma linkRepo_lookups c o config w :
  repo_lookups (calls (fst (linkRepo c o config w))) =
    (repo_lookups (calls w) ++ [repoTarget o config])%list /\
  team_lookups (calls (fst (linkRepo c o config w))) = team_lookups (calls w).
Proof.
  destruct (api.GitHubRepo c (repoTarget o config)) as [found|e] eqn:Hf.
  - destruct (linkRepo_shape c o config w found Hf) as (tail & out & r & Hc & ->).
    destruct (closing_lookups _ Hc) as [Hr Ht].
    cbn [fst]. rewrite calls_after, !repo_lookups_app, !team_lookups_app, Hr, Ht.
    cbn [repo_lookups team_lookups flat_map app]. now rewrite !app_nil_r.
  - rewrite (linkRepo_lookup_failure c o config w e Hf). cbn [fst].
    rewrite calls_after, repo_lookups_app, team_lookups_app.
    cbn [repo_lookups team_lookups flat_map app]. now rewrite !app_nil_r.
Qed.

Lemma linkTeam_lookups c o config w :
  team_lookups (calls (fst (linkTeam c o config w))) =
    (team_lookups (calls w) ++ [(teamOrg o, team (opts config))])%list /\
  repo_lookups (calls (fst (linkTeam c o config w))) = repo_lookups (calls w).
Proof.
  destruct (api.OrganizationTeam c (teamOrg o) (team (opts config))) as [found|e] eqn:Hf.
  - destruct (linkTeam_shape c o config w found Hf) as (tail & out & r & Hc & ->).
    destruct (closing_lookups _ Hc) as [Hr Ht].
    cbn [fst]. rewrite calls_after, !repo_lookups_app, !team_lookups_app, Hr, Ht.
    cbn [repo_lookups team_lookups flat_map app]. now rewrite !app_nil_r.
  - rewrite (linkTeam_lookup_failure c o config w e Hf). cbn [fst].
    rewrite calls_after, repo_lookups_app, team_lookups_app.
    cbn [repo_lookups team_lookups flat_map app]. now rewrite !app_nil_r.
Qed.

(** X5. Once the owner, the project and the HTTP client are there, the
    target is looked up exactly once, under the login that the owner
    resolution returned (not the [--owner] value): the repository by the
    [--repo] name whenever that is set, even if a team name is set too,
    and otherwise the team, in the owner's organisation with an empty
    repository name.  The other kind of target is never looked up. *)
Theorem target_looked_up_under_the_resolved_owner config w own p h :
  NewOwner (client config) (iostreams.CanPrompt (io config)) (owner (opts config)) = Ok own ->
  NewProject (client config) (iostreams.CanPrompt (io config)) own
    (number (opts config)) false = Ok p ->
  httpClient config = Ok h ->
  (nonempty (repo (opts config)) = true ->
   repo_lookups (calls (fst (runLink config w))) =
     (repo_lookups (calls w) ++
      [ghrepo.New (queries.Login own) (repo (opts config))])%list /\
   team_lookups (calls (fst (runLink config w))) = team_lookups (calls w)) /\
  (nonempty (repo (opts config)) = false ->
   nonempty (team (opts config)) = true ->
   team_lookups (calls (fst (runLink config w))) =
     (team_lookups (calls w) ++
      [(ghrepo.New (queries.Login own) "", team (opts config))])%list /\
   repo_lookups (calls (fst (runLink config w))) = repo_lookups (calls w)).
Proof.
  intros Ho Hp Hh.
  rewrite (runLink_resolved config w own p h Ho Hp Hh). cbv zeta.
  split.
  - intros ->.
    destruct (linkRepo_lookups (api.NewClientFromHTTP h) own (with_projectID config p)
                (after w [CallNewOwner (iostreams.CanPrompt (io config))
                            (owner (opts config));
                          CallNewProject (iostreams.CanPrompt (io config)) own
                            (number (opts config)) false;
                          CallHttpClient] "")) as [-> ->].
    rewrite calls_after, repo_lookups_app, team_lookups_app.
    cbn [repo_lookups team_lookups flat_map app]. rewrite !app_nil_r.
    split; reflexivity.
  - intros -> ->.
    destruct (linkTeam_lookups (api.NewClientFromHTTP h) own (with_projectID config p)
                (after w [CallNewOwner (iostreams.CanPrompt (io config))
                            (owner (opts config));
                          CallNewProject (iostreams.CanPrompt (io config)) own
                            (number (opts config)) false;
                          CallHttpClient] "")) as [-> ->].
    rewrite calls_after, repo_lookups_app, team_lookups_app.
    cbn [repo_lookups team_lookups flat_map app]. rewrite !app_nil_r.
    split; reflexivity.
Qed.

Lemma target_looked_up_under_the_resolved_owner_witness :
  repo_lookups (calls (fst (runLink Sample.bothTargets start))) =
    [ghrepo.New "monalisa" "my_repo"] /\
  team_lookups (calls (fst (runLink Sample.bothTargets start))) = [].
Proof.
  exact (proj1 (target_looked_up_under_the_resolved_owner Sample.bothTargets start
    {| queries.Login := "monalisa" |} {| queries.Project_ID := "PVT_1" |}
    Sample.transport eq_refl eq_refl eq_refl) eq_refl).
Defined.

(** X6. Called with neither a repository nor a team name, [runLink]
    still resolves the owner and the project and builds the HTTP client,
    then returns nil: it looks nothing up, sends no mutation and writes
    nothing. *)
Theorem no_target_nothing_linked config w :
  nonempty (repo (opts config)) = false ->
  nonempty (team (opts config)) = false ->
  stdout (fst (runLink config w)) = stdout w /\
  mutations (calls (fst (runLink config w))) = mutations (calls w) /\
  repo_lookups (calls (fst (runLink config w))) = repo_lookups (calls w) /\
  team_lookups (calls (fst (runLink config w))) = team_lookups (calls w) /\
  forall own p h,
    NewOwner (client config) (iostreams.CanPrompt (io config)) (owner (opts config))
      = Ok own ->
    NewProject (client config) (iostreams.CanPrompt (io config)) own
      (number (opts config)) false = Ok p ->
    httpClient config = Ok h ->
    snd (runLink config w) = Ok tt /\
    steps (calls (fst (runLink config w))) =
      (steps (calls w) ++ [OwnerResolution; ProjectResolution])%list.
Proof.
  intros Hr Ht.
  assert (Hquiet : forall cs (r : result unit),
            mutations cs = [] -> repo_lookups cs = [] -> team_lookups cs = [] ->
            stdout (fst (after w cs "", r)) = stdout w /\
            mutations (calls (fst (after w cs "", r))) = mutations (calls w) /\
            repo_lookups (calls (fst (after w cs "", r))) = repo_lookups (calls w) /\
            team_lookups (calls (fst (after w cs "", r))) = team_lookups (calls w)).
  { intros cs r Hm Hrl Htl. cbn [fst].
    rewrite stdout_after, calls_after, mutations_app, repo_lookups_app,
      team_lookups_app, Hm, Hrl, Htl, !app_nil_r, string_app_empty_r.
    repeat split; reflexivity. }
  destruct (NewOwner (client config) (iostreams.CanPrompt (io config))
              (owner (opts config))) as [own|e] eqn:Ho.
  2: { rewrite (runLink_owner_failure config w e Ho).
       match goal with
       | |- context [(after w ?cs "", ?r)] =>
           destruct (Hquiet cs r eq_refl eq_refl eq_refl) as (H1 & H2 & H3 & H4)
       end.
       repeat split; try assumption; discriminate. }
  destruct (NewProject (client config) (iostreams.CanPrompt (io config)) own
              (number (opts config)) false) as [p|e] eqn:Hp.
  2: { rewrite (runLink_project_failure config w own e Ho Hp).
       match goal with
       | |- context [(after w ?cs "", ?r)] =>
           destruct (Hquiet cs r eq_refl eq_refl eq_refl) as (H1 & H2 & H3 & H4)
       end.
       split; [exact H1|]. split; [exact H2|]. split; [exact H3|]. split; [exact H4|].
       intros ? ? ? [= <-]. rewrite Hp. discriminate. }
  destruct (httpClient config) as [h|e] eqn:Hh.
  2: { rewrite (runLink_httpClient_failure config w own p e Ho Hp Hh).
       match goal with
       | |- context [(after w ?cs "", ?r)] =>
           destruct (Hquiet cs r eq_refl eq_refl eq_refl) as (H1 & H2 & H3 & H4)
       end.
       split; [exact H1|]. split; [exact H2|]. split; [exact H3|]. split; [exact H4|].
       intros ? ? ? _ _. discriminate. }
  rewrite (runLink_resolved config w own p h Ho Hp Hh). cbv zeta. rewrite Hr, Ht.
  destruct (Hquiet [CallNewOwner (iostreams.CanPrompt (io config)) (owner (opts config));
                    CallNewProject (iostreams.CanPrompt (io config)) own
                      (number (opts config)) false;
                    CallHttpClient] (Ok tt) eq_refl eq_refl eq_refl)
    as (H1 & H2 & H3 & H4).
  split; [exact H1|]. split; [exact H2|]. split; [exact H3|]. split; [exact H4|].
  intros ? ? ? _ _ _. split; [reflexivity|].
  cbn [fst]. rewrite calls_after, steps_app. reflexivity.
Qed.

Lemma no_target_nothing_linked_witness :
  snd (runLink (Sample.config Sample.terminal Sample.queriesClient Sample.noTargetFlags)
         start) = Ok tt /\
  stdout (fst (runLink
    (Sample.config Sample.terminal Sample.queriesClient Sample.noTargetFlags) start)) = "".
Proof.
  destruct (no_target_nothing_linked
    (Sample.config Sample.terminal Sample.queriesClient Sample.noTargetFlags) start
    eq_refl eq_refl) as (Hout & _ & _ & _ & Hok).
  split.
  - exact (proj1 (Hok {| queries.Login := "monalisa" |} {| queries.Project_ID := "PVT_1" |}
                    Sample.transport eq_refl eq_refl eq_refl)).
  - exact Hout.
Defined.

(** A run that linked has sent its one mutation, however it ends. *)
Lemma runLink_linked_sent config w data :
  linked config data ->
  exists m, mutations (calls (fst (runLink config w))) = (mutations (calls w) ++ [m])%list.
Proof.
  intros [own p h found query Ho Hp Hh Hr Hf Hm | own p h found query Ho Hp Hh Hr Ht Hf Hm];
    rewrite (runLink_resolved config w own p h Ho Hp Hh); cbv zeta; rewrite Hr.
  - rewrite (linkRepo_mutations _ own (with_projectID config p) _ found Hf).
    rewrite mutations_after by reflexivity. now eexists.
  - rewrite Ht.
    rewrite (linkTeam_mutations _ own (with_projectID config p) _ found Hf).
    rewrite mutations_after by reflexivity. now eexists.
Qed.

(** X7. Standard output is touched only after a successful mutation: if
    a run of [runLink] wrote anything, then every lookup had succeeded,
    the mutation had been accepted and exactly one mutation was sent. *)
Theorem output_only_after_the_mutation config w :
  stdout (fst (runLink config w)) <> stdout w ->
  exists data,
    linked config data /\
    exists m,
      mutations (calls (fst (runLink config w))) = (mutations (calls w) ++ [m])%list.
Proof.
  intros Hout.
  destruct (runLink_cases config w) as [(cs & e & H) | [(_ & _ & cs & H) | [data Hl]]].
  - exfalso. apply Hout. rewrite H. cbn [fst]. rewrite stdout_after.
    apply string_app_empty_r.
  - exfalso. apply Hout. rewrite H. cbn [fst]. rewrite stdout_after.
    apply string_app_empty_r.
  - exists data. split; [exact Hl|]. now apply (runLink_linked_sent config w data).
Qed.

Lemma output_only_after_the_mutation_witness :
  exists data,
    linked (Sample.config Sample.terminal Sample.queriesClient Sample.repoFlags) data /\
    exists m,
      mutations (calls (fst (runLink
        (Sample.config Sample.terminal Sample.queriesClient Sample.repoFlags) start))) =
        (mutations (calls start) ++ [m])%list.
Proof.
  apply (output_only_after_the_mutation
    (Sample.config Sample.terminal Sample.queriesClient Sample.repoFlags) start).
  vm_compute. discriminate.
Defined.

(** X8. A failing exporter fails the command after the link is made:
    when every lookup and the mutation succeeded and [exporter.Write]
    returns an error, the run returns that error unchanged, the one
    mutation has been sent and is not undone, and standard output holds
    whatever the exporter wrote before failing. *)
Theorem export_failure_comes_after_the_link config w ex data e :
  exporter (opts config) = Some ex ->
  linked config data ->
  snd (Write ex data) = Some e ->
  snd (runLink config w) = Err e /\
  stdout (fst (runLink config w)) = stdout w ++ fst (Write ex data) /\
  printed (calls (fst (runLink config w))) = printed (calls w) /\
  exists m,
    mutations (calls (fst (runLink config w))) = (mutations (calls w) ++ [m])%list.
Proof.
  intros Hex Hl He.
  split; [|split; [|split]].
  - destruct (runLink_linked config w data Hl) as (path & _ & _ & ->).
    rewrite Hex, Exporter_Write_run. cbn [snd]. now rewrite He.
  - destruct (runLink_linked config w data Hl) as (path & _ & _ & ->).
    rewrite Hex, Exporter_Write_run, after_after. cbn [fst]. now rewrite stdout_after.
  - destruct (runLink_linked config w data Hl) as (path & Hp & _ & ->).
    rewrite Hex, Exporter_Write_run, after_after. cbn [fst].
    rewrite calls_after, !printed_app, Hp. cbn [printed flat_map app].
    now rewrite app_nil_r.
  - now apply (runLink_linked_sent config w data).
Qed.

Lemma export_failure_comes_after_the_link_witness :
  snd (runLink (Sample.config Sample.pipe Sample.queriesClient Sample.failingExportFlags)
         start) = Err (Failure "export failed") /\
  stdout (fst (runLink
    (Sample.config Sample.pipe Sample.queriesClient Sample.failingExportFlags) start)) =
    "{".
Proof.
  destruct (export_failure_comes_after_the_link
    (Sample.config Sample.pipe Sample.queriesClient Sample.failingExportFlags) start
    Sample.failingExporter
    (RepositoryData {| queries.Repository_URL := Sample.repoURL |})
    (Failure "export failed") eq_refl) as (Hr & Hout & _).
  - apply (linked_repo _ {| queries.Login := "monalisa" |}
             {| queries.Project_ID := "PVT_1" |} Sample.transport
             {| api.Repository_ID := "R_1" |}
             {| LinkProjectV2ToRepository_Repository :=
                  {| queries.Repository_URL := Sample.repoURL |} |}); reflexivity.
  - reflexivity.
  - split; [exact Hr | exact Hout].
Defined.

(** X9. On a terminal with no exporter, a write error on standard output
    fails the command after the link is made: the run returns the
    writer's error unchanged, the one mutation has been sent, and
    standard output holds the bytes of the URL line that the writer took
    before failing, nothing else. *)
Theorem print_failure_comes_after_the_link config w data n e :
  exporter (opts config) = None ->
  iostreams.IsStdoutTTY (io config) = true ->
  linked config data ->
  iostreams.Out (io config) (url_of data ++ fmt.newline) = Some (n, e) ->
  snd (runLink config w) = Err e /\
  stdout (fst (runLink config w)) =
    stdout w ++ substring 0 n (url_of data ++ fmt.newline) /\
  exists m,
    mutations (calls (fst (runLink config w))) = (mutations (calls w) ++ [m])%list.
Proof.
  intros Hex Htty Hl Hout.
  split; [|split].
  - destruct (runLink_linked config w data Hl) as (path & _ & _ & ->).
    now rewrite Hex, (printResults_tty_failed config _ _ n e Htty Hout).
  - destruct (runLink_linked config w data Hl) as (path & _ & _ & ->).
    rewrite Hex, (printResults_tty_failed config _ _ n e Htty Hout), after_after.
    cbn [fst]. now rewrite stdout_after.
  - now apply (runLink_linked_sent config w data).
Qed.

Lemma print_failure_comes_after_the_link_witness :
  snd (runLink (Sample.config Sample.closedTerminal Sample.queriesClient Sample.teamFlags)
         start) = Err (Failure "write: broken pipe") /\
  stdout (fst (runLink
    (Sample.config Sample.closedTerminal Sample.queriesClient Sample.teamFlags) start)) =
    "" ++ substring 0 4 (Sample.teamURL ++ fmt.newline).
Proof.
  destruct (print_failure_comes_after_the_link
    (Sample.config Sample.closedTerminal Sample.queriesClient Sample.teamFlags) start
    (TeamData {| queries.Team_URL := Sample.teamURL |}) 4%nat
    (Failure "write: broken pipe") eq_refl eq_refl) as (Hr & Hout & _).
  - apply (linked_team _ {| queries.Login := "my_org" |}
             {| queries.Project_ID := "PVT_1" |} Sample.transport
             {| api.OrgTeam_ID := "T_1" |}
             {| LinkProjectV2ToTeam_Team := {| queries.Team_URL := Sample.teamURL |} |});
      reflexivity.
  - reflexivity.
  - split; [exact Hr | exact Hout].
Defined.
